(** * Email-Automation: a shallow embedding of [script.py]

    The script sends one personalised HTML e-mail per recipient through an
    SMTP relay.  This development embeds [CIDEmailSender] (its constructor,
    [create_email_message], [send_email] and [send_bulk_emails]) as
    functions over an explicit world: the environment variables, the file
    system and the SMTP relay are oracles, the log and the network traffic
    are an event trace, and Python exceptions are values of a result type. *)

From Stdlib Require Import ZArith Ascii String Lia.
From stdpp Require Import base strings list gmap.

Local Arguments String.append !_ _ / : simpl nomatch.

(** ** Python [str] operations used by the script *)

Module PyStr.

(** [s.startswith(p)] *)
Fixpoint startswith (s p : string) {struct p} : bool :=
  match p with
  | "" => true
  | String a p' =>
      match s with
      | "" => false
      | String b s' => if Ascii.eqb a b then startswith s' p' else false
      end
  end.

(** [p in s] *)
Fixpoint contains (s p : string) : bool :=
  startswith s p ||
  match s with
  | "" => false
  | String _ s' => contains s' p
  end.

(** [s[k:]] *)
Fixpoint drop (k : nat) (s : string) : string :=
  match k, s with
  | S k', String _ s' => drop k' s'
  | _, _ => s
  end.

(** The scan of [str.replace] for a non-empty pattern: left to right, an
    occurrence found at the cursor is replaced and the cursor jumps over
    it ([skip] counts the characters of the occurrence still to pass). *)
Fixpoint replace_go (old new : string) (skip : nat) (s : string) : string :=
  match s with
  | "" => ""
  | String c s' =>
      match skip with
      | S k => replace_go old new k s'
      | O =>
          if startswith s old
          then new +:+ replace_go old new (String.length old - 1) s'
          else String c (replace_go old new 0 s')
      end
  end.

(** With an empty pattern Python inserts [new] before every character and
    at the end. *)
Fixpoint intersperse (new s : string) : string :=
  match s with
  | "" => new
  | String c s' => new +:+ String c (intersperse new s')
  end.

(** [s.replace(old, new)] *)
Definition replace (s old new : string) : string :=
  match old with
  | "" => intersperse new s
  | String _ _ => replace_go old new 0 s
  end.

(** [no_straddle old y]: [y] does not begin with a proper non-empty
    suffix of [old].  An occurrence of [old] can then not begin before
    [y] and end inside it. *)
Definition no_straddle (old y : string) : bool :=
  forallb (fun k => negb (startswith y (drop k old)))
          (seq 1 (String.length old - 1)).

End PyStr.

(** ** Exceptions *)

(** The exception classes the script can meet.  All of them derive from
    [Exception]; [FileNotFoundError] is the only one an [except] clause of
    the script singles out, and [SMTPServerDisconnected] the one that the
    exit of an SMTP session passes over. *)
Inductive exn_class :=
| KeyError
| ValueError
| TypeError
| FileNotFoundError
| OSError
| SMTPException
| SMTPServerDisconnected
| OtherException.

(** An exception object: its class and [str(e)]. *)
Record exn := Exn { exn_cls : exn_class; exn_str : string }.

Inductive Res (A : Type) :=
| Ok (a : A)
| Raise (e : exn).
Arguments Ok {A} a.
Arguments Raise {A} e.

(** [repr(s)] of a string without quotes, backslashes or control
    characters (the three literal keys looked up by the script are such). *)
Definition repr (s : string) : string := "'" +:+ s +:+ "'".

(** ** MIME messages *)

Inductive MIMEPart :=
| MIMEText (text subtype : string)
| MIMEImage (data : list Byte.byte) (subtype : string)
            (headers : list (string * string)).

(** [MIMEMultipart(subtype)]: the headers set with [msg[k] = v], in the
    order they were set, and the attached parts, in the order of
    [msg.attach]. *)
Record MIMEMultipart := {
  mp_subtype : string;
  mp_headers : list (string * string);
  mp_payload : list MIMEPart
}.

Definition new_multipart (subtype : string) : MIMEMultipart :=
  {| mp_subtype := subtype; mp_headers := []; mp_payload := [] |}.

(** [msg[k] = v] appends a header (it never replaces one). *)
Definition set_header (msg : MIMEMultipart) (k v : string) : MIMEMultipart :=
  {| mp_subtype := mp_subtype msg;
     mp_headers := mp_headers msg ++ [(k, v)];
     mp_payload := mp_payload msg |}.

Definition attach (msg : MIMEMultipart) (p : MIMEPart) : MIMEMultipart :=
  {| mp_subtype := mp_subtype msg;
     mp_headers := mp_headers msg;
     mp_payload := mp_payload msg ++ [p] |}.

(** [img.add_header(k, v)] *)
Definition add_header (p : MIMEPart) (k v : string) : MIMEPart :=
  match p with
  | MIMEText t s => MIMEText t s
  | MIMEImage d s hs => MIMEImage d s (hs ++ [(k, v)])
  end.

(** [msg[k]]: the first header of that name. *)
Definition get_header (msg : MIMEMultipart) (k : string) : option string :=
  snd <$> List.find (fun kv => String.eqb (fst kv) k) (mp_headers msg).

(** The HTML body: the payload of the first text part. *)
Fixpoint first_text (ps : list MIMEPart) : option string :=
  match ps with
  | [] => None
  | MIMEText t _ :: _ => Some t
  | MIMEImage _ _ _ :: ps' => first_text ps'
  end.

Definition html_body (msg : MIMEMultipart) : option string :=
  first_text (mp_payload msg).

(** The attachments: the [Content-ID] header value of every image part. *)
Definition part_content_id (p : MIMEPart) : option (option string) :=
  match p with
  | MIMEText _ _ => None
  | MIMEImage _ _ hs =>
      Some (snd <$> List.find (fun kv => String.eqb (fst kv) "Content-ID") hs)
  end.

Definition attachment_content_ids (msg : MIMEMultipart) : list (option string) :=
  omap part_content_id (mp_payload msg).

(** The identifier a [Content-ID] header value carries: the text between
    its angle brackets ([<logo>] identifies [cid:logo]). *)
Fixpoint strip_closing (s : string) : option string :=
  match s with
  | "" => None
  | String c "" => if Ascii.eqb c ">" then Some "" else None
  | String c s' => String c <$> strip_closing s'
  end.

Definition content_identifier (header_value : string) : option string :=
  match header_value with
  | String "<" s => strip_closing s
  | _ => None
  end.

(** ** The world the script runs in *)

Inductive level := INFO | WARNING | ERROR.

Inductive smtp_cmd :=
| CONNECT (host : string) (port : Z)
| STARTTLS
| LOGIN (user password : string)
| SEND (msg : MIMEMultipart)
| QUIT.

(** What the process does that is visible from outside: a log line, an
    SMTP command on session [sid] with whether it succeeded, and the
    closing of the socket of session [sid]. *)
Inductive event :=
| Log (lvl : level) (msg : string)
| Smtp (sid : nat) (cmd : smtp_cmd) (ok : bool)
| Close (sid : nat).

(** How the relay answers during one session: for each step, [None] when
    it succeeds and the exception raised otherwise.  [quit_r] is the
    outcome of the [QUIT] sent when the [with] block is left. *)
Record session_script := {
  connect_r : option exn;
  starttls_r : option exn;
  login_r : option exn;
  send_message_r : option exn;
  quit_r : option exn
}.

(** The oracles: the environment (after [load_dotenv]), what [int] makes
    of a string (its value, or the exception it raises), the file system,
    the image type detection of [MIMEImage], and the relay's behaviour in
    its n-th session. *)
Record World := {
  environ : gmap string string;
  int_str : string -> exn + Z;
  read_text : string -> exn + string;
  read_bytes : string -> exn + list Byte.byte;
  image_subtype : list Byte.byte -> option string;
  smtp_relay : nat -> session_script
}.

Record State := {
  trace : list event;
  sessions : nat
}.

Definition emit (e : event) (st : State) : State :=
  {| trace := trace st ++ [e]; sessions := sessions st |}.

(** The state after more events and with [n] sessions seen. *)
Definition extend (st : State) (evs : list event) (n : nat) : State :=
  {| trace := trace st ++ evs; sessions := n |}.

(** Sessions whose socket is open after a trace. *)
Fixpoint live_from (open : list nat) (tr : list event) : list nat :=
  match tr with
  | [] => open
  | Smtp sid (CONNECT _ _) true :: tr' => live_from (open ++ [sid]) tr'
  | Close sid :: tr' =>
      live_from (List.filter (fun i => negb (Nat.eqb i sid)) open) tr'
  | _ :: tr' => live_from open tr'
  end.

Definition live (tr : list event) : list nat := live_from [] tr.

Definition is_network (e : event) : bool :=
  match e with
  | Log _ _ => false
  | _ => true
  end.

Definition network_activity (tr : list event) : list event :=
  List.filter is_network tr.

(** ** The monad of the script: state and exceptions *)

Definition M (A : Type) : Type := State -> Res A * State.

Definition ret {A} (a : A) : M A := fun st => (Ok a, st).

Definition raise {A} (e : exn) : M A := fun st => (Raise e, st).

Definition bind {A B} (m : M A) (k : A -> M B) : M B :=
  fun st =>
    match m st with
    | (Ok a, st') => k a st'
    | (Raise e, st') => (Raise e, st')
    end.

Notation "x <- y ; z" := (bind y (fun x => z))
  (at level 20, y at level 100, z at level 200, only parsing).

(** [try: body except Exception as e: handler(e)] *)
Definition try_except {A} (body : M A) (handler : exn -> M A) : M A :=
  fun st =>
    match body st with
    | (Ok a, st') => (Ok a, st')
    | (Raise e, st') => handler e st'
    end.

Definition lift {A} (r : Res A) : M A := fun st => (r, st).

Definition of_sum {A} (r : exn + A) : M A :=
  match r with
  | inl e => raise e
  | inr a => ret a
  end.

(** [logger.info], [logger.error] *)
Definition log (lvl : level) (msg : string) : M unit :=
  fun st => (Ok tt, emit (Log lvl msg) st).

(** [d[k]] on a [Dict[str, str]] *)
Definition getitem (d : gmap string string) (k : string) : M string :=
  match d !! k with
  | Some v => ret v
  | None => raise (Exn KeyError (repr k))
  end.

(** [os.getenv(k, default)] *)
Definition getenv (w : World) (k fallback : string) : string :=
  match environ w !! k with
  | Some v => v
  | None => fallback
  end.

(** Truthiness of an [Optional[str]] *)
Definition truthy (o : option string) : bool :=
  match o with
  | None | Some "" => false
  | Some _ => true
  end.

(** ** smtplib *)

Record SMTP := { sid : nat; script : session_script }.

Definition command (server : SMTP) (cmd : smtp_cmd) (r : option exn) : M unit :=
  fun st =>
    match r with
    | None => (Ok tt, emit (Smtp (sid server) cmd true) st)
    | Some e => (Raise e, emit (Smtp (sid server) cmd false) st)
    end.

(** [smtplib.SMTP(host, port)]: opens the connection; when that fails no
    socket stays open. *)
Definition SMTP_connect (w : World) (host : string) (port : Z) : M SMTP :=
  fun st =>
    let server := {| sid := sessions st; script := smtp_relay w (sessions st) |} in
    let st1 := {| trace := trace st; sessions := S (sessions st) |} in
    match command server (CONNECT host port) (connect_r (script server)) st1 with
    | (Ok _, st2) => (Ok server, st2)
    | (Raise e, st2) => (Raise e, st2)
    end.

Definition starttls (server : SMTP) : M unit :=
  command server STARTTLS (starttls_r (script server)).

Definition login (server : SMTP) (user password : string) : M unit :=
  command server (LOGIN user password) (login_r (script server)).

Definition send_message (server : SMTP) (msg : MIMEMultipart) : M unit :=
  command server (SEND msg) (send_message_r (script server)).

Definition is_disconnected (e : exn) : bool :=
  match exn_cls e with
  | SMTPServerDisconnected => true
  | _ => false
  end.

(** [SMTP.__exit__]: sends [QUIT] and raises what that raises, except that
    it passes over [SMTPServerDisconnected]; it closes the socket in every
    case. *)
Definition SMTP_exit (server : SMTP) : M unit :=
  fun st =>
    match command server QUIT (quit_r (script server)) st with
    | (Ok _, st1) => (Ok tt, emit (Close (sid server)) st1)
    | (Raise e, st1) =>
        if is_disconnected e
        then (Ok tt, emit (Close (sid server)) st1)
        else (Raise e, emit (Close (sid server)) st1)
    end.

(** [with smtplib.SMTP(host, port) as server: body]: the exit runs on every
    way out of the body; an exception of the exit replaces the body's. *)
Definition with_SMTP {A} (w : World) (host : string) (port : Z)
    (body : SMTP -> M A) : M A :=
  fun st =>
    match SMTP_connect w host port st with
    | (Raise e, st1) => (Raise e, st1)
    | (Ok server, st1) =>
        match body server st1 with
        | (r, st2) =>
            match SMTP_exit server st2 with
            | (Raise e, st3) => (Raise e, st3)
            | (Ok _, st3) => (r, st3)
            end
        end
    end.

(** [int(s)] *)
Definition py_int (w : World) (s : string) : M Z :=
  of_sum (int_str w s).

(** [open(path, 'r', encoding='utf-8').read()] and
    [open(path, 'rb').read()] *)
Definition open_read_text (w : World) (path : string) : M string :=
  of_sum (read_text w path).

Definition open_read_bytes (w : World) (path : string) : M (list Byte.byte) :=
  of_sum (read_bytes w path).

(** [MIMEImage(data)]: the subtype is guessed from the data. *)
Definition new_MIMEImage (w : World) (data : list Byte.byte) : M MIMEPart :=
  match image_subtype w data with
  | Some subtype => ret (MIMEImage data subtype [])
  | None => raise (Exn TypeError "Could not guess image MIME subtype")
  end.

(** ** [class CIDEmailSender] *)

Record CIDEmailSender := {
  smtp_server : string;
  smtp_port : Z;
  sender_email : string;
  sender_password : string
}.

Definition missing_variables : exn :=
  Exn ValueError
      "Missing required environment variables: EMAIL_SENDER and EMAIL_PASSWORD".

(** [CIDEmailSender.__init__].  Past the validation both credentials are
    non-empty strings, so the fallback of [default] is never used. *)
Definition init (w : World) : M CIDEmailSender :=
  let smtp_server := getenv w "SMTP_SERVER" "smtp.gmail.com" in
  smtp_port <- py_int w (getenv w "SMTP_PORT" "587");
  let sender_email := environ w !! "EMAIL_SENDER" in
  let sender_password := environ w !! "EMAIL_PASSWORD" in
  if negb (forallb truthy [sender_email; sender_password])
  then raise missing_variables
  else ret {| smtp_server := smtp_server;
              smtp_port := smtp_port;
              sender_email := default "" sender_email;
              sender_password := default "" sender_password |}.

(** Lines 59-60: the two replacements, one after the other. *)
Definition personalize (html_content : string) (recipient : gmap string string)
    : M string :=
  name <- getitem recipient "name";
  let html_content := PyStr.replace html_content "{{name}}" name in
  role <- getitem recipient "role";
  let html_content := PyStr.replace html_content "{{role}}" role in
  ret html_content.

(** Lines 67-71: the loop over [images.items()], in insertion order. *)
Fixpoint attach_images (w : World) (items : list (string * string))
    (msg : MIMEMultipart) : M MIMEMultipart :=
  match items with
  | [] => ret msg
  | (image_id, image_path) :: items' =>
      data <- open_read_bytes w image_path;
      img <- new_MIMEImage w data;
      let img := add_header img "Content-ID" ("<" +:+ image_id +:+ ">") in
      attach_images w items' (attach msg img)
  end.

(** The two [except] clauses of [create_email_message]: each logs and
    re-raises the exception it caught. *)
Definition create_handler (template_path : string) (e : exn) : M MIMEMultipart :=
  match exn_cls e with
  | FileNotFoundError =>
      _ <- log ERROR ("Template file not found: " +:+ template_path);
      raise e
  | _ =>
      _ <- log ERROR ("Error creating email message: " +:+ exn_str e);
      raise e
  end.

Definition create_email_message (w : World) (self : CIDEmailSender)
    (recipient : gmap string string) (template_path : string)
    (images : list (string * string)) : M MIMEMultipart :=
  let msg := new_multipart "related" in
  let msg := set_header msg "From" (sender_email self) in
  to <- getitem recipient "email";
  let msg := set_header msg "To" to in
  name <- getitem recipient "name";
  let msg := set_header msg "Subject" ("Welcome " +:+ name +:+ " to Tinkering Lab!") in
  try_except
    (html_content <- open_read_text w template_path;
     html_content <- personalize html_content recipient;
     let html_part := MIMEText html_content "html" in
     let msg := attach msg html_part in
     attach_images w images msg)
    (create_handler template_path).

Definition send_email (w : World) (self : CIDEmailSender)
    (recipient : gmap string string) (template_path : string)
    (images : list (string * string)) : M bool :=
  try_except
    (msg <- create_email_message w self recipient template_path images;
     _ <- with_SMTP w (smtp_server self) (smtp_port self) (fun server =>
            _ <- starttls server;
            _ <- login server (sender_email self) (sender_password self);
            send_message server msg);
     email <- getitem recipient "email";
     _ <- log INFO ("Email sent successfully to " +:+ email);
     ret true)
    (fun e =>
       email <- getitem recipient "email";
       _ <- log ERROR ("Failed to send email to " +:+ email +:+ ": " +:+ exn_str e);
       ret false).

(** The dictionary [{"success": [...], "failed": [...]}] *)
Record SendResult := {
  success : list string;
  failed : list string
}.

Fixpoint send_bulk_loop (w : World) (self : CIDEmailSender)
    (recipients : list (gmap string string)) (template_path : string)
    (images : list (string * string)) (results : SendResult) : M SendResult :=
  match recipients with
  | [] => ret results
  | recipient :: recipients' =>
      sent <- send_email w self recipient template_path images;
      email <- getitem recipient "email";
      let results :=
        if sent
        then {| success := success results ++ [email]; failed := failed results |}
        else {| success := success results; failed := failed results ++ [email] |} in
      send_bulk_loop w self recipients' template_path images results
  end.

Definition send_bulk_emails (w : World) (self : CIDEmailSender)
    (recipients : list (gmap string string)) (template_path : string)
    (images : list (string * string)) : M SendResult :=
  let results := {| success := []; failed := [] |} in
  send_bulk_loop w self recipients template_path images results.

(** ** Pure readings of the effectful parts

    What the loops and the session compute, as functions of the oracles
    alone; they are proved equal to the code above. *)

(** One turn of the image loop. *)
Definition image_part (w : World) (item : string * string) : exn + MIMEPart :=
  match read_bytes w item.2 with
  | inl e => inl e
  | inr data =>
      match image_subtype w data with
      | None => inl (Exn TypeError "Could not guess image MIME subtype")
      | Some subtype =>
          inr (MIMEImage data subtype [("Content-ID", "<" +:+ item.1 +:+ ">")])
      end
  end.

Fixpoint image_parts (w : World) (items : list (string * string))
    : exn + list MIMEPart :=
  match items with
  | [] => inr []
  | item :: items' =>
      match image_part w item with
      | inl e => inl e
      | inr p =>
          match image_parts w items' with
          | inl e => inl e
          | inr ps => inr (p :: ps)
          end
      end
  end.

(** Every image file can be read and its type is recognised. *)
Definition images_ok (w : World) (images : list (string * string)) : bool :=
  match image_parts w images with
  | inr _ => true
  | inl _ => false
  end.

(** The line [create_email_message] logs for an exception caught in its
    [try] block. *)
Definition create_log (template_path : string) (e : exn) : event :=
  match exn_cls e with
  | FileNotFoundError => Log ERROR ("Template file not found: " +:+ template_path)
  | _ => Log ERROR ("Error creating email message: " +:+ exn_str e)
  end.

Definition no_exn (r : option exn) : bool :=
  match r with
  | None => true
  | Some _ => false
  end.

(** The commands of the [with] body of [send_email], up to the first that
    fails. *)
Definition body_trace (sid : nat) (sc : session_script) (user password : string)
    (msg : MIMEMultipart) : list event :=
  match starttls_r sc with
  | Some _ => [Smtp sid STARTTLS false]
  | None =>
      Smtp sid STARTTLS true ::
      match login_r sc with
      | Some _ => [Smtp sid (LOGIN user password) false]
      | None =>
          [Smtp sid (LOGIN user password) true;
           Smtp sid (SEND msg) (no_exn (send_message_r sc))]
      end
  end.

Definition body_outcome (sc : session_script) : option exn :=
  match starttls_r sc with
  | Some e => Some e
  | None =>
      match login_r sc with
      | Some e => Some e
      | None => send_message_r sc
      end
  end.

(** The whole session: its events and the exception that leaves the [with]
    statement, if any. *)
Definition session_trace (sid : nat) (sc : session_script) (host : string)
    (port : Z) (user password : string) (msg : MIMEMultipart) : list event :=
  match connect_r sc with
  | Some _ => [Smtp sid (CONNECT host port) false]
  | None =>
      Smtp sid (CONNECT host port) true ::
      body_trace sid sc user password msg ++
      [Smtp sid QUIT (no_exn (quit_r sc)); Close sid]
  end.

(** The exception that leaves the exit of the session, if any. *)
Definition exit_outcome (sc : session_script) : option exn :=
  match quit_r sc with
  | Some e => if is_disconnected e then None else Some e
  | None => None
  end.

Definition session_outcome (sc : session_script) : option exn :=
  match connect_r sc with
  | Some e => Some e
  | None =>
      match exit_outcome sc with
      | Some e => Some e
      | None => body_outcome sc
      end
  end.

(** The message [create_email_message] returns when nothing fails. *)
Definition built_message (self : CIDEmailSender) (to name html : string)
    (images : list MIMEPart) : MIMEMultipart :=
  {| mp_subtype := "related";
     mp_headers := [("From", sender_email self); ("To", to);
                    ("Subject", "Welcome " +:+ name +:+ " to Tinkering Lab!")];
     mp_payload := MIMEText html "html" :: images |}.

(** The [try] block of [create_email_message]: the exception it stops on,
    or the HTML and the image parts. *)
Definition try_block (w : World) (recipient : gmap string string)
    (template_path : string) (images : list (string * string))
    : exn + (string * list MIMEPart) :=
  match read_text w template_path with
  | inl e => inl e
  | inr template =>
      match recipient !! "name" with
      | None => inl (Exn KeyError (repr "name"))
      | Some name =>
          match recipient !! "role" with
          | None => inl (Exn KeyError (repr "role"))
          | Some role =>
              match image_parts w images with
              | inl e => inl e
              | inr ps =>
                  inr (PyStr.replace (PyStr.replace template "{{name}}" name)
                                     "{{role}}" role, ps)
              end
          end
      end
  end.

Definition sent_line (email : string) : event :=
  Log INFO ("Email sent successfully to " +:+ email).

Definition failed_line (email : string) (e : exn) : event :=
  Log ERROR ("Failed to send email to " +:+ email +:+ ": " +:+ exn_str e).

(** One call of [send_email] when the relay has seen [n] sessions: what it
    returns, the events it adds, and the sessions seen afterwards. *)
Definition send_email_run (w : World) (self : CIDEmailSender)
    (recipient : gmap string string) (template_path : string)
    (images : list (string * string)) (n : nat)
    : Res bool * list event * nat :=
  match recipient !! "email" with
  | None => (Raise (Exn KeyError (repr "email")), [], n)
  | Some email =>
      match recipient !! "name" with
      | None => (Ok false, [failed_line email (Exn KeyError (repr "name"))], n)
      | Some name =>
          match try_block w recipient template_path images with
          | inl e => (Ok false, [create_log template_path e; failed_line email e], n)
          | inr (html, ps) =>
              let msg := built_message self email name html ps in
              let sc := smtp_relay w n in
              let tr := session_trace n sc (smtp_server self) (smtp_port self)
                          (sender_email self) (sender_password self) msg in
              match session_outcome sc with
              | None => (Ok true, tr ++ [sent_line email], S n)
              | Some e => (Ok false, tr ++ [failed_line email e], S n)
              end
          end
      end
  end.

(** The loop of [send_bulk_emails]: its result, the events of each turn,
    and the sessions seen afterwards. *)
Fixpoint send_bulk_run (w : World) (self : CIDEmailSender)
    (recipients : list (gmap string string)) (template_path : string)
    (images : list (string * string)) (n : nat) (results : SendResult)
    : Res SendResult * list (list event) * nat :=
  match recipients with
  | [] => (Ok results, [], n)
  | recipient :: recipients' =>
      match send_email_run w self recipient template_path images n with
      | (Raise e, evs, n') => (Raise e, [evs], n')
      | (Ok sent, evs, n') =>
          match recipient !! "email" with
          | None => (Raise (Exn KeyError (repr "email")), [evs], n')
          | Some email =>
              let results :=
                if sent
                then {| success := success results ++ [email];
                        failed := failed results |}
                else {| success := success results;
                        failed := failed results ++ [email] |} in
              match send_bulk_run w self recipients' template_path images n' results with
              | (res, chunks, n'') => (res, evs :: chunks, n'')
              end
          end
      end
  end.

(** ** The specification's reading of the substitution

    A map [H] from template text to HTML replaces every placeholder and
    changes nothing else when it passes through concatenation at every
    occurrence of a placeholder, putting the value there, and is the
    identity on text without placeholders. *)
Definition fills_placeholders (H : string -> string) (name role : string) : Prop :=
  (forall x y, H (x +:+ "{{name}}" +:+ y) = H x +:+ name +:+ H y) /\
  (forall x y, H (x +:+ "{{role}}" +:+ y) = H x +:+ role +:+ H y) /\
  (forall t, PyStr.contains t "{{name}}" = false ->
             PyStr.contains t "{{role}}" = false -> H t = t).

(** [H] is the map from the template text to the HTML body of the message
    [create_email_message] builds for [recipient]: every message built
    carries [H] of the template read, and one is built whenever the
    recipient has an address, the template can be read and the images are
    usable. *)
Definition html_of_template (self : CIDEmailSender)
    (recipient : gmap string string) (H : string -> string) : Prop :=
  (forall w template_path images st m st',
      create_email_message w self recipient template_path images st = (Ok m, st') ->
      exists template,
        read_text w template_path = inr template /\ html_body m = Some (H template)) /\
  (forall w template_path images st template,
      is_Some (recipient !! "email") ->
      read_text w template_path = inr template ->
      images_ok w images = true ->
      exists m,
        create_email_message w self recipient template_path images st = (Ok m, st) /\
        html_body m = Some (H template)).

(** ** The specification's reading of the bulk send *)

(** The addresses at the positions whose outcome is [b], in order. *)
Fixpoint select (b : bool) (oks : list bool) (emails : list string) : list string :=
  match oks, emails with
  | ok :: oks', email :: emails' =>
      if Bool.eqb ok b then email :: select b oks' emails'
      else select b oks' emails'
  | _, _ => []
  end.

(** One call of [send_email] for every recipient, in order, whatever the
    earlier calls returned. *)
Fixpoint attempt_each (w : World) (self : CIDEmailSender)
    (recipients : list (gmap string string)) (template_path : string)
    (images : list (string * string)) (st : State) : list (Res bool) * State :=
  match recipients with
  | [] => ([], st)
  | recipient :: recipients' =>
      match send_email w self recipient template_path images st with
      | (r, st1) =>
          match attempt_each w self recipients' template_path images st1 with
          | (rs, st2) => (r :: rs, st2)
          end
      end
  end.

(** The specification's "generic construction failed error wrapping the
    underlying fault": an exception of its own, other than the fault it
    wraps. *)
Definition construction_failed_wrapping (raised fault : exn) : Prop :=
  raised <> fault.

(** ** Sample data *)

Definition ada : gmap string string :=
  {[ "name" := "Ada"; "role" := "Engineer"; "email" := "ada@x.com" ]}.

Definition bob : gmap string string :=
  {[ "name" := "Bob"; "role" := "Tester"; "email" := "bob@x.com" ]}.

Definition lab_sender : CIDEmailSender :=
  {| smtp_server := "smtp.gmail.com"; smtp_port := 587;
     sender_email := "lab@x.com"; sender_password := "secret" |}.

Definition all_fine : session_script :=
  {| connect_r := None; starttls_r := None; login_r := None;
     send_message_r := None; quit_r := None |}.

Definition login_refused : session_script :=
  {| connect_r := None; starttls_r := None;
     login_r := Some (Exn SMTPException "(535, b'5.7.8 Username and Password not accepted')");
     send_message_r := None; quit_r := None |}.

Definition no_such_file (path : string) : exn :=
  Exn FileNotFoundError ("[Errno 2] No such file or directory: " +:+ repr path).

(** A world with one template, one PNG image, and a relay that accepts
    the first session and refuses the login of every later one; its
    [int] reads the default port and refuses every other text. *)
Definition lab_world : World :=
  {| environ := {[ "EMAIL_SENDER" := "lab@x.com"; "EMAIL_PASSWORD" := "secret" ]};
     int_str := fun s =>
       if String.eqb s "587" then inr 587%Z
       else inl (Exn ValueError ("invalid literal for int() with base 10: " +:+ repr s));
     read_text := fun path =>
       if String.eqb path "new-email.html"
       then inr "Hello {{name}}, role: {{role}}"
       else inl (no_such_file path);
     read_bytes := fun path =>
       if String.eqb path "a.png"
       then inr [Byte.x89; Byte.x50; Byte.x4e; Byte.x47]
       else inl (no_such_file path);
     image_subtype := fun data =>
       match data with
       | Byte.x89 :: _ => Some "png"
       | _ => None
       end;
     smtp_relay := fun n =>
       match n with
       | O => all_fine
       | S _ => login_refused
       end |}.

Definition start : State := {| trace := []; sessions := 0 |}.


(** The same world with no environment variable set. *)
Definition bare_world : World :=
  {| environ := ∅;
     int_str := int_str lab_world;
     read_text := read_text lab_world;
     read_bytes := read_bytes lab_world;
     image_subtype := image_subtype lab_world;
     smtp_relay := smtp_relay lab_world |}.

Definition permission_denied : exn :=
  Exn OSError "[Errno 13] Permission denied: 'a.png'".

(** The same world with an image file that cannot be read. *)
Definition locked_world : World :=
  {| environ := environ lab_world;
     int_str := int_str lab_world;
     read_text := read_text lab_world;
     read_bytes := fun path =>
       if String.eqb path "a.png" then inl permission_denied
       else inl (no_such_file path);
     image_subtype := image_subtype lab_world;
     smtp_relay := smtp_relay lab_world |}.

(** ** The entry point *)

(** [sep.join(l)] *)
Fixpoint join (sep : string) (l : list string) : string :=
  match l with
  | [] => ""
  | [s] => s
  | s :: l' => s +:+ sep +:+ join sep l'
  end.

(** The body of [main], as a function of its three local variables. *)
Definition main_body (w : World) (recipients : list (gmap string string))
    (template_path : string) (images : list (string * string)) : M unit :=
  try_except
    (sender <- init w;
     results <- send_bulk_emails w sender recipients template_path images;
     _ <- log INFO ("Successfully sent emails to: " +:+ join ", " (success results));
     match failed results with
     | [] => ret tt
     | _ :: _ =>
         log WARNING ("Failed to send emails to: " +:+ join ", " (failed results))
     end)
    (fun e => log ERROR ("Application error: " +:+ exn_str e)).

Definition main_images : list (string * string) :=
  [("logo", "./images/logo.png");
   ("instagram2x", "./images/instagram2x.png");
   ("linkedin2x", "./images/linkedin2x.png");
   ("website2x", "./images/website2x.png");
   ("662b71d6-f351-4098-842f-8c5f50a34709",
    "./images/662b71d6-f351-4098-842f-8c5f50a34709.jpg");
   ("bfd", "./images/bfd.jpg")].

(** [main]: the recipient list of the script is empty, and
    [Path("./new-email.html")] prints and opens as [new-email.html]. *)
Definition main (w : World) : M unit :=
  main_body w [] "new-email.html" main_images.

(** ** The order of the commands of a session

    [protocol_ok secured authed tr]: in [tr] a [LOGIN] is only issued on a
    session whose [STARTTLS] succeeded, and a message is only sent on a
    session whose [LOGIN] succeeded ([secured] and [authed] are the
    sessions in that state before [tr]). *)
Definition mem (i : nat) (l : list nat) : bool := existsb (Nat.eqb i) l.

Fixpoint protocol_ok (secured authed : list nat) (tr : list event) : bool :=
  match tr with
  | [] => true
  | Smtp i STARTTLS true :: tr' => protocol_ok (i :: secured) authed tr'
  | Smtp i (LOGIN _ _) ok :: tr' =>
      mem i secured &&
      protocol_ok secured (if ok then i :: authed else authed) tr'
  | Smtp i (SEND _) _ :: tr' => mem i authed && protocol_ok secured authed tr'
  | _ :: tr' => protocol_ok secured authed tr'
  end.

(** ** More sample data *)

Definition nameless : gmap string string :=
  {[ "role" := "Engineer"; "email" := "ada@x.com" ]}.

Definition roleless : gmap string string :=
  {[ "name" := "Ada"; "email" := "ada@x.com" ]}.

Definition addressless : gmap string string :=
  {[ "name" := "Ada"; "role" := "Engineer" ]}.

Definition quit_rejected : session_script :=
  {| connect_r := None; starttls_r := None; login_r := None;
     send_message_r := None;
     quit_r := Some (Exn SMTPException "(421, b'Service not available')") |}.

(** The same world with a relay that takes every message but answers the
    closing [QUIT] with an error. *)
Definition quit_rejected_world : World :=
  {| environ := environ lab_world;
     int_str := int_str lab_world;
     read_text := read_text lab_world;
     read_bytes := read_bytes lab_world;
     image_subtype := image_subtype lab_world;
     smtp_relay := fun _ => quit_rejected |}.

(** The same world with a relay that accepts every session. *)
Definition fine_world : World :=
  {| environ := environ lab_world;
     int_str := int_str lab_world;
     read_text := read_text lab_world;
     read_bytes := read_bytes lab_world;
     image_subtype := image_subtype lab_world;
     smtp_relay := fun _ => all_fine |}.


Definition quit_unanswered : session_script :=
  {| connect_r := None; starttls_r := None; login_r := None;
     send_message_r := None;
     quit_r := Some (Exn SMTPServerDisconnected "Connection unexpectedly closed") |}.

(** The same world with a relay that takes every message and then drops
    the connection instead of answering the closing [QUIT]. *)
Definition quit_unanswered_world : World :=
  {| environ := environ lab_world;
     int_str := int_str lab_world;
     read_text := read_text lab_world;
     read_bytes := read_bytes lab_world;
     image_subtype := image_subtype lab_world;
     smtp_relay := fun _ => quit_unanswered |}.

(** * Facts *)

(** ** Strings *)

Section StringFacts.
Import PyStr.

Lemma string_app_assoc (a b c : string) : (a +:+ b) +:+ c = a +:+ (b +:+ c).
Proof. induction a as [|x a IH]; simpl; [reflexivity | now rewrite IH]. Qed.

Lemma string_app_nil_r (a : string) : a +:+ "" = a.
Proof. induction a as [|x a IH]; simpl; [reflexivity | now rewrite IH]. Qed.

Lemma string_length_app (a b : string) :
  String.length (a +:+ b) = String.length a + String.length b.
Proof. induction a as [|x a IH]; simpl; [reflexivity | now rewrite IH]. Qed.

Lemma drop_app (a b : string) : drop (String.length a) (a +:+ b) = b.
Proof. induction a as [|x a IH]; simpl; [now destruct b | exact IH]. Qed.

Lemma startswith_app (p r : string) : startswith (p +:+ r) p = true.
Proof.
  induction p as [|x p IH]; simpl; [reflexivity |].
  now rewrite Ascii.eqb_refl.
Qed.

Lemma startswith_true (s p : string) :
  startswith s p = true -> exists r, s = p +:+ r.
Proof.
  revert s; induction p as [|a p IH]; intros s H; simpl in *.
  - now exists s.
  - destruct s as [|b s]; [discriminate |].
    destruct (Ascii.eqb a b) eqn:E; [| discriminate].
    apply Ascii.eqb_eq in E; subst b.
    destruct (IH _ H) as [r ->]. now exists r.
Qed.

(** A prefix of [u +:+ v] either fits in [u] or runs over the seam. *)
Lemma startswith_split (u v p : string) :
  startswith (u +:+ v) p = true ->
  startswith u p = true \/
  exists q, q <> "" /\ p = u +:+ q /\ startswith v q = true.
Proof.
  revert p; induction u as [|b u IH]; intros p H.
  - destruct p as [|a p]; [now left |].
    right. exists (String a p). now repeat split.
  - destruct p as [|a p]; [now left |].
    simpl in H |- *.
    destruct (Ascii.eqb a b) eqn:E; [| discriminate].
    apply Ascii.eqb_eq in E; subst b.
    destruct (IH _ H) as [Hu | (q & Hq & -> & Hv)]; [now left |].
    right. now exists q.
Qed.

Lemma replace_nil (old new : string) : old <> "" -> replace "" old new = "".
Proof. now destruct old. Qed.

Lemma replace_go_skip (old new a s : string) :
  replace_go old new (String.length a) (a +:+ s) = replace_go old new 0 s.
Proof.
  induction a as [|x a IH]; simpl; [| exact IH].
  now destruct s.
Qed.

(** An occurrence at the cursor is replaced and the scan resumes after it. *)
Lemma replace_hit (old new r : string) :
  old <> "" -> replace (old +:+ r) old new = new +:+ replace r old new.
Proof.
  destruct old as [|a old]; [congruence | intros _].
  unfold replace. change (String a old +:+ r) with (String a (old +:+ r)).
  cbn [replace_go].
  change (String a (old +:+ r)) with (String a old +:+ r).
  rewrite startswith_app.
  cbn [String.length]. rewrite Nat.sub_1_r. cbn [Nat.pred].
  now rewrite replace_go_skip.
Qed.

(** Where no occurrence begins, the character is copied. *)
Lemma replace_miss (old new : string) (c : ascii) (s : string) :
  old <> "" ->
  startswith (String c s) old = false ->
  replace (String c s) old new = String c (replace s old new).
Proof.
  destruct old as [|a old]; [congruence | intros _ H].
  unfold replace. cbn [replace_go]. now rewrite H.
Qed.

(** Induction along the scan of [replace]. *)
Lemma scan_ind (old : string) (P : string -> Prop) :
  old <> "" ->
  P "" ->
  (forall r, P r -> P (old +:+ r)) ->
  (forall c s, startswith (String c s) old = false -> P s -> P (String c s)) ->
  forall s, P s.
Proof.
  intros Hold Hnil Hhit Hmiss s.
  remember (String.length s) as n eqn:Hn.
  revert s Hn; induction n as [n IH] using lt_wf_ind; intros s ->.
  destruct s as [|c s]; [exact Hnil |].
  destruct (startswith (String c s) old) eqn:E.
  - destruct (startswith_true _ _ E) as [r Hr]. rewrite Hr.
    apply Hhit, (IH (String.length r)); [| reflexivity].
    rewrite Hr, string_length_app.
    destruct old; [congruence | simpl; lia].
  - apply Hmiss; [exact E |].
    apply (IH (String.length s)); [simpl; lia | reflexivity].
Qed.

Lemma replace_absent (s old new : string) :
  old <> "" -> contains s old = false -> replace s old new = s.
Proof.
  intros Hold; induction s as [|c s IH]; intros H.
  - now apply replace_nil.
  - cbn [contains] in H. apply orb_false_iff in H as [H1 H2].
    rewrite replace_miss by assumption. now rewrite IH.
Qed.

(** [replace] distributes over a seam no occurrence can straddle. *)
Lemma replace_app (x y old new : string) :
  old <> "" ->
  no_straddle old y = true ->
  replace (x +:+ y) old new = replace x old new +:+ replace y old new.
Proof.
  intros Hold Hy. revert x.
  apply (scan_ind old); [exact Hold | | |].
  - now rewrite replace_nil.
  - intros r IH.
    now rewrite string_app_assoc, !replace_hit, IH, string_app_assoc.
  - intros c s Hc IH.
    change (String c s +:+ y) with (String c (s +:+ y)).
    rewrite !replace_miss, IH; [reflexivity | assumption.. |].
    destruct (startswith (String c (s +:+ y)) old) eqn:E; [| reflexivity].
    change (String c (s +:+ y)) with (String c s +:+ y) in E.
    apply startswith_split in E as [E | (q & Hq & Hsplit & Hv)]; [congruence |].
    exfalso. unfold no_straddle in Hy.
    rewrite forallb_forall in Hy.
    specialize (Hy (String.length (String c s))).
    rewrite Hsplit, drop_app, Hv in Hy.
    enough (negb true = true) by discriminate.
    apply Hy, in_seq. rewrite string_length_app.
    destruct q; [congruence | simpl; lia].
Qed.

End StringFacts.

(** ** Placeholders *)

Section Placeholders.
Import PyStr.

Lemma replace_name_at (x y new : string) :
  replace (x +:+ "{{name}}" +:+ y) "{{name}}" new
  = replace x "{{name}}" new +:+ new +:+ replace y "{{name}}" new.
Proof.
  rewrite replace_app, replace_hit; [reflexivity | discriminate.. | reflexivity].
Qed.

Lemma replace_role_at (x y new : string) :
  replace (x +:+ "{{role}}" +:+ y) "{{role}}" new
  = replace x "{{role}}" new +:+ new +:+ replace y "{{role}}" new.
Proof.
  rewrite replace_app, replace_hit; [reflexivity | discriminate.. | reflexivity].
Qed.

(** The scan for [{{name}}] passes over an occurrence of [{{role}}]. *)
Lemma replace_name_over_role (x y new : string) :
  replace (x +:+ "{{role}}" +:+ y) "{{name}}" new
  = replace x "{{name}}" new +:+ "{{role}}" +:+ replace y "{{name}}" new.
Proof.
  rewrite replace_app; [| discriminate | reflexivity].
  f_equal.
Qed.

End Placeholders.

(** ** The code against its pure readings *)

Section Runs.
Context (w : World) (self : CIDEmailSender).

Lemma extend_nil (st : State) : extend st [] (sessions st) = st.
Proof. destruct st; unfold extend; simpl. now rewrite app_nil_r. Qed.

Lemma getitem_some (d : gmap string string) (k v : string) (st : State) :
  d !! k = Some v -> getitem d k st = (Ok v, st).
Proof. intros H. unfold getitem. now rewrite H. Qed.

Lemma getitem_none (d : gmap string string) (k : string) (st : State) :
  d !! k = None -> getitem d k st = (Raise (Exn KeyError (repr k)), st).
Proof. intros H. unfold getitem. now rewrite H. Qed.

Lemma attach_images_spec (items : list (string * string))
    (msg : MIMEMultipart) (st : State) :
  attach_images w items msg st =
  match image_parts w items with
  | inr ps =>
      (Ok {| mp_subtype := mp_subtype msg;
             mp_headers := mp_headers msg;
             mp_payload := mp_payload msg ++ ps |}, st)
  | inl e => (Raise e, st)
  end.
Proof.
  revert msg; induction items as [|[image_id image_path] items IH]; intros msg.
  - simpl. unfold ret. destruct msg; simpl. now rewrite app_nil_r.
  - cbn [attach_images image_parts]. unfold image_part, bind at 1.
    unfold open_read_bytes, of_sum. cbn [fst snd].
    destruct (read_bytes w image_path) as [e|data]; [reflexivity |].
    unfold ret at 1, bind at 1, new_MIMEImage.
    destruct (image_subtype w data) as [subtype|]; [| reflexivity].
    unfold ret at 1. rewrite IH.
    destruct (image_parts w items) as [e|ps]; [reflexivity |].
    cbn. now rewrite <- app_assoc.
Qed.

Lemma create_email_message_spec (recipient : gmap string string)
    (template_path : string) (images : list (string * string)) (st : State) :
  create_email_message w self recipient template_path images st =
  match recipient !! "email" with
  | None => (Raise (Exn KeyError (repr "email")), st)
  | Some to =>
      match recipient !! "name" with
      | None => (Raise (Exn KeyError (repr "name")), st)
      | Some name =>
          match try_block w recipient template_path images with
          | inl e => (Raise e, emit (create_log template_path e) st)
          | inr (html, ps) => (Ok (built_message self to name html ps), st)
          end
      end
  end.
Proof.
  unfold create_email_message, try_block, bind at 1, getitem at 1.
  destruct (recipient !! "email") as [to|]; [| reflexivity].
  unfold ret at 1, bind at 1, getitem at 1.
  destruct (recipient !! "name") as [name|] eqn:Hname; [| reflexivity].
  unfold ret at 1, try_except, bind at 1, open_read_text, of_sum.
  assert (Hh : forall e, create_handler template_path e st
               = (Raise e, emit (create_log template_path e) st)).
  { intros e. unfold create_handler, create_log.
    now destruct (exn_cls e). }
  destruct (read_text w template_path) as [e|template]; [apply Hh |].
  unfold ret at 1, bind at 1, personalize, bind at 1.
  rewrite (getitem_some _ _ _ _ Hname).
  unfold bind at 1, getitem at 1.
  destruct (recipient !! "role") as [role|]; [| apply Hh].
  unfold ret at 1 2. rewrite attach_images_spec.
  destruct (image_parts w images) as [e|ps]; [apply Hh | reflexivity].
Qed.

Lemma with_SMTP_spec (msg : MIMEMultipart) (st : State) :
  with_SMTP w (smtp_server self) (smtp_port self) (fun server =>
    _ <- starttls server;
    _ <- login server (sender_email self) (sender_password self);
    send_message server msg) st =
  let sc := smtp_relay w (sessions st) in
  (match session_outcome sc with
   | None => Ok tt
   | Some e => Raise e
   end,
   extend st (session_trace (sessions st) sc (smtp_server self) (smtp_port self)
                (sender_email self) (sender_password self) msg)
          (S (sessions st))).
Proof.
  unfold with_SMTP, SMTP_connect, SMTP_exit, starttls, login, send_message,
    bind, command, session_outcome, exit_outcome, session_trace, body_outcome,
    body_trace, extend, emit.
  cbn [sid script trace sessions].
  destruct (smtp_relay w (sessions st)) as [c t l s q]; cbn.
  destruct c, t, l, s, q as [eq|]; cbn; try destruct (is_disconnected eq); cbn;
    rewrite <- ?app_assoc; reflexivity.
Qed.

Lemma send_email_spec (recipient : gmap string string)
    (template_path : string) (images : list (string * string)) (st : State) :
  send_email w self recipient template_path images st =
  match send_email_run w self recipient template_path images (sessions st) with
  | (res, evs, n) => (res, extend st evs n)
  end.
Proof.
  unfold send_email, send_email_run, try_except, bind at 1.
  rewrite create_email_message_spec.
  destruct (recipient !! "email") as [email|] eqn:Hemail.
  2:{ unfold bind, getitem. rewrite Hemail. unfold raise.
      now rewrite extend_nil. }
  destruct (recipient !! "name") as [name|].
  2:{ unfold bind, getitem. rewrite Hemail. reflexivity. }
  destruct (try_block w recipient template_path images) as [e|[html ps]].
  { unfold bind, getitem. rewrite Hemail. unfold ret, log, extend, emit. cbn.
    now rewrite <- app_assoc. }
  unfold bind at 1. rewrite with_SMTP_spec. cbv zeta.
  destruct (session_outcome (smtp_relay w (sessions st))) as [e|].
  - unfold bind, getitem. rewrite Hemail. unfold ret, log, extend, emit. cbn.
    now rewrite <- app_assoc.
  - unfold bind, getitem. rewrite Hemail. unfold ret, log, extend, emit. cbn.
    now rewrite <- app_assoc.
Qed.

Lemma send_bulk_loop_spec (recipients : list (gmap string string))
    (template_path : string) (images : list (string * string))
    (results : SendResult) (st : State) :
  send_bulk_loop w self recipients template_path images results st =
  match send_bulk_run w self recipients template_path images (sessions st) results with
  | (res, chunks, n) => (res, extend st (concat chunks) n)
  end.
Proof.
  revert results st; induction recipients as [|r rs IH]; intros results st.
  - cbn. unfold ret. now rewrite extend_nil.
  - cbn [send_bulk_loop send_bulk_run]. unfold bind at 1.
    rewrite send_email_spec.
    destruct (send_email_run w self r template_path images (sessions st))
      as [[[sent|e] evs] n].
    2:{ cbn. now rewrite app_nil_r. }
    unfold bind at 1, getitem.
    destruct (r !! "email") as [email|].
    2:{ cbn. now rewrite app_nil_r. }
    unfold ret at 1. rewrite IH. cbn [sessions extend].
    destruct (send_bulk_run w self rs template_path images n _)
      as [[res chunks] n'].
    unfold extend. cbn. now rewrite <- app_assoc.
Qed.

End Runs.

(** ** The message built by [create_email_message] *)

Section Messages.
Import PyStr.

Lemma create_ok_inv (w : World) (self : CIDEmailSender)
    (recipient : gmap string string) (template_path : string)
    (images : list (string * string)) (st st' : State) (m : MIMEMultipart) :
  create_email_message w self recipient template_path images st = (Ok m, st') ->
  exists to name role template ps,
    recipient !! "email" = Some to /\
    recipient !! "name" = Some name /\
    recipient !! "role" = Some role /\
    read_text w template_path = inr template /\
    image_parts w images = inr ps /\
    st' = st /\
    m = built_message self to name
          (replace (replace template "{{name}}" name) "{{role}}" role) ps.
Proof.
  rewrite create_email_message_spec. unfold try_block.
  destruct (recipient !! "email") as [to|]; [| discriminate].
  destruct (recipient !! "name") as [name|]; [| discriminate].
  destruct (read_text w template_path) as [e|template]; [discriminate |].
  destruct (recipient !! "role") as [role|]; [| discriminate].
  destruct (image_parts w images) as [e|ps]; [discriminate |].
  intros [= <- <-]. now exists to, name, role, template, ps.
Qed.

Lemma html_of_template_replace (self : CIDEmailSender)
    (recipient : gmap string string) (name role : string) :
  recipient !! "name" = Some name ->
  recipient !! "role" = Some role ->
  html_of_template self recipient
    (fun t => replace (replace t "{{name}}" name) "{{role}}" role).
Proof.
  intros Hname Hrole; split.
  - intros w template_path images st m st' Hm.
    apply create_ok_inv in Hm
      as (to & name' & role' & template & ps & _ & Hn & Hr & Ht & _ & _ & ->).
    exists template. split; [exact Ht |].
    rewrite Hname in Hn. rewrite Hrole in Hr.
    injection Hn as <-. injection Hr as <-. reflexivity.
  - intros w template_path images st template [to Hto] Ht Hi.
    rewrite create_email_message_spec. unfold try_block, images_ok in *.
    rewrite Hto, Hname, Ht, Hrole.
    destruct (image_parts w images) as [e|ps]; [discriminate |].
    eexists; split; reflexivity.
Qed.

End Messages.

(** ** Claims on the built message *)

Section MessageClaims.
Import PyStr.

(** C1: for a recipient named "Ada" with role "Engineer", the HTML body of
    the built message is the template with every [{{name}}] replaced by
    "Ada", every [{{role}}] by "Engineer" and nothing else changed; a
    template without placeholders comes out verbatim, and
    [Hello {{name}}, role: {{role}}] becomes [Hello Ada, role: Engineer]. *)
Theorem C1_ada_engineer_html (self : CIDEmailSender)
    (recipient : gmap string string) :
  recipient !! "name" = Some "Ada" ->
  recipient !! "role" = Some "Engineer" ->
  exists H : string -> string,
    html_of_template self recipient H /\
    fills_placeholders H "Ada" "Engineer" /\
    H "Hello {{name}}, role: {{role}}" = "Hello Ada, role: Engineer".
Proof.
  intros Hname Hrole.
  exists (fun t => replace (replace t "{{name}}" "Ada") "{{role}}" "Engineer").
  split; [now apply html_of_template_replace |].
  split; [| reflexivity].
  split; [| split].
  - intros x y. rewrite replace_name_at.
    rewrite (replace_app _ ("Ada" +:+ _)); [| discriminate | reflexivity].
    f_equal.
  - intros x y. now rewrite replace_name_over_role, replace_role_at.
  - intros t Hn Hr. rewrite (replace_absent t) by (discriminate || assumption).
    now apply replace_absent.
Qed.

Lemma C1_ada_engineer_html_witness :
  ada !! "name" = Some "Ada" /\
  ada !! "role" = Some "Engineer" /\
  exists H : string -> string,
    html_of_template lab_sender ada H /\
    fills_placeholders H "Ada" "Engineer" /\
    H "Hello {{name}}, role: {{role}}" = "Hello Ada, role: Engineer".
Proof.
  split; [reflexivity |]. split; [reflexivity |].
  apply (C1_ada_engineer_html lab_sender ada); reflexivity.
Defined.

(** C9: the substitution is sequential, [{{name}}] first and [{{role}}]
    over the intermediate text.  A [{{role}}] inside the name value is
    itself replaced by the role value in the final HTML, whereas the role
    value is put in as it is, whatever it contains. *)
Theorem C9_sequential_substitution (self : CIDEmailSender)
    (recipient : gmap string string) (name role : string) :
  recipient !! "name" = Some name ->
  recipient !! "role" = Some role ->
  exists H : string -> string,
    html_of_template self recipient H /\
    (forall t, H t = replace (replace t "{{name}}" name) "{{role}}" role) /\
    (forall a b x y,
        name = a +:+ "{{role}}" +:+ b ->
        H (x +:+ "{{name}}" +:+ y)
        = replace (replace x "{{name}}" name +:+ a) "{{role}}" role
          +:+ role
          +:+ replace (b +:+ replace y "{{name}}" name) "{{role}}" role) /\
    (forall x y, H (x +:+ "{{role}}" +:+ y) = H x +:+ role +:+ H y).
Proof.
  intros Hname Hrole.
  exists (fun t => replace (replace t "{{name}}" name) "{{role}}" role).
  split; [now apply html_of_template_replace |].
  split; [reflexivity |]. split.
  - intros a b x y Hn. rewrite replace_name_at.
    rewrite Hn at 2. rewrite !string_app_assoc.
    rewrite <- (string_app_assoc _ a). apply replace_role_at.
  - intros x y. now rewrite replace_name_over_role, replace_role_at.
Qed.

Lemma C9_sequential_substitution_witness :
  let nested : gmap string string :=
    {[ "name" := "x{{role}}y"; "role" := "<{{name}}>"; "email" := "n@x.com" ]} in
  exists H : string -> string,
    html_of_template lab_sender nested H /\
    H "{{name}}" = "x<{{name}}>y" /\
    H "{{role}}" = "<{{name}}>".
Proof.
  intros nested.
  destruct (C9_sequential_substitution lab_sender nested "x{{role}}y" "<{{name}}>")
    as (H & Hh & Hdef & _); [reflexivity | reflexivity |].
  exists H. split; [exact Hh |].
  split; rewrite Hdef; reflexivity.
Defined.

(** C10: the built message has the sender address as [From], the
    recipient's address as [To] and "Welcome <name> to Tinkering Lab!" as
    [Subject], whatever the template and the images are. *)
Theorem C10_headers (w : World) (self : CIDEmailSender)
    (recipient : gmap string string) (template_path : string)
    (images : list (string * string)) (st st' : State) (m : MIMEMultipart) :
  create_email_message w self recipient template_path images st = (Ok m, st') ->
  exists to name,
    recipient !! "email" = Some to /\
    recipient !! "name" = Some name /\
    mp_headers m = [("From", sender_email self); ("To", to);
                    ("Subject", "Welcome " +:+ name +:+ " to Tinkering Lab!")] /\
    get_header m "From" = Some (sender_email self) /\
    get_header m "To" = Some to /\
    get_header m "Subject" = Some ("Welcome " +:+ name +:+ " to Tinkering Lab!") /\
    forall w2 template_path2 images2 st2 st2' m2,
      create_email_message w2 self recipient template_path2 images2 st2 = (Ok m2, st2') ->
      mp_headers m2 = mp_headers m.
Proof.
  intros Hm.
  apply create_ok_inv in Hm
    as (to & name & role & template & ps & Hto & Hname & _ & _ & _ & _ & ->).
  exists to, name. repeat split; try assumption; try reflexivity.
  intros w2 template_path2 images2 st2 st2' m2 Hm2.
  apply create_ok_inv in Hm2
    as (to2 & name2 & role2 & template2 & ps2 & Hto2 & Hname2 & _ & _ & _ & _ & ->).
  rewrite Hto in Hto2. rewrite Hname in Hname2.
  injection Hto2 as <-. injection Hname2 as <-. reflexivity.
Qed.

Lemma C10_headers_witness :
  exists m,
    create_email_message lab_world lab_sender ada "new-email.html"
      [("logo", "a.png")] start = (Ok m, start) /\
    mp_headers m = [("From", "lab@x.com"); ("To", "ada@x.com");
                    ("Subject", "Welcome Ada to Tinkering Lab!")].
Proof.
  eexists. split; [reflexivity |].
  destruct (C10_headers lab_world lab_sender ada "new-email.html"
              [("logo", "a.png")] start start _ eq_refl)
    as (to & name & Hto & Hname & Hh & _).
  rewrite Hh. injection Hto as <-. injection Hname as <-. reflexivity.
Defined.

(** C4: the built message has one image part for every entry of the image
    map, in the order of the map, and the [Content-ID] header of each part
    carries the entry's key between angle brackets; for the map
    [{"logo": "a.png"}] there is exactly one attachment and its content
    identifier is [logo]. *)
Theorem C4_content_ids (w : World) (self : CIDEmailSender)
    (recipient : gmap string string) (template_path : string)
    (images : list (string * string)) (st st' : State) (m : MIMEMultipart) :
  create_email_message w self recipient template_path images st = (Ok m, st') ->
  attachment_content_ids m
  = map (fun item => Some ("<" +:+ item.1 +:+ ">")) images /\
  map (fun h => h ≫= content_identifier) (attachment_content_ids m)
  = map (fun item => Some item.1) images /\
  length (attachment_content_ids m) = length images.
Proof.
  intros Hm.
  apply create_ok_inv in Hm
    as (to & name & role & template & ps & _ & _ & _ & _ & Hps & _ & ->).
  assert (Hids : omap part_content_id ps
                 = map (fun item => Some ("<" +:+ item.1 +:+ ">")) images).
  { revert ps Hps; induction images as [|[k path] items IH]; intros ps Hps.
    - injection Hps as <-. reflexivity.
    - cbn [image_parts] in Hps. unfold image_part in Hps. cbn [fst snd] in Hps.
      destruct (read_bytes w path) as [e|data]; [discriminate |].
      destruct (image_subtype w data) as [subtype|]; [| discriminate].
      destruct (image_parts w items) as [e|ps']; [discriminate |].
      injection Hps as <-. cbn. f_equal. now apply IH. }
  unfold attachment_content_ids, built_message; cbn [mp_payload omap list_omap part_content_id].
  fold (omap part_content_id ps). rewrite Hids.
  split; [reflexivity |]. split; [| now rewrite length_map].
  rewrite map_map. apply map_ext. intros [k path]. cbn [fst option_bind mbind].
  unfold content_identifier. cbn.
  f_equal. induction k as [|c k IH]; [reflexivity |].
  cbn. destruct (k +:+ ">") eqn:E; [now destruct k |].
  now rewrite IH.
Qed.

Lemma C4_content_ids_witness :
  exists m,
    create_email_message lab_world lab_sender ada "new-email.html"
      [("logo", "a.png")] start = (Ok m, start) /\
    attachment_content_ids m = [Some "<logo>"] /\
    map (fun h => h ≫= content_identifier) (attachment_content_ids m) = [Some "logo"].
Proof.
  eexists. split; [reflexivity |].
  destruct (C4_content_ids lab_world lab_sender ada "new-email.html"
              [("logo", "a.png")] start start _ eq_refl) as (H1 & H2 & _).
  split; [exact H1 | exact H2].
Defined.

End MessageClaims.

(** ** Claims on the constructor and on the failures of the build *)

Section FailureClaims.




(** C6, as stated, fails: when an image file cannot be read, the exception
    that leaves [create_email_message] is that very fault, not an error
    wrapping it. *)
Lemma C6_fault_is_not_wrapped :
  read_bytes locked_world "a.png" = inl permission_denied /\
  ~ (exists raised st',
        create_email_message locked_world lab_sender ada "new-email.html"
          [("logo", "a.png")] start = (Raise raised, st') /\
        construction_failed_wrapping raised permission_denied).
Proof.
  split; [reflexivity |].
  intros (raised & st' & Hc & Hw).
  apply Hw. injection Hc as <- _. reflexivity.
Qed.

(** C6, amended: for a recipient with an address and a name, when the
    template path does not resolve [create_email_message] logs "Template
    file not found: <path>" and re-raises the [FileNotFoundError]; for any
    fault that is no [FileNotFoundError] (on reading the template, on the
    missing role, on reading or recognising an image) it logs "Error
    creating email message: <fault>" and re-raises the fault itself. *)
Theorem C6_log_and_reraise (w : World) (self : CIDEmailSender)
    (recipient : gmap string string) (template_path : string)
    (images : list (string * string)) (st : State) :
  is_Some (recipient !! "email") ->
  is_Some (recipient !! "name") ->
  (forall e,
      read_text w template_path = inl e ->
      exn_cls e = FileNotFoundError ->
      create_email_message w self recipient template_path images st
      = (Raise e, emit (Log ERROR ("Template file not found: " +:+ template_path)) st)) /\
  (forall e,
      read_text w template_path = inl e \/
      (exists template,
          read_text w template_path = inr template /\
          (recipient !! "role" = None /\ e = Exn KeyError (repr "role") \/
           is_Some (recipient !! "role") /\ image_parts w images = inl e)) ->
      exn_cls e <> FileNotFoundError ->
      create_email_message w self recipient template_path images st
      = (Raise e, emit (Log ERROR ("Error creating email message: " +:+ exn_str e)) st)).
Proof.
  intros [to Hto] [name Hname].
  assert (Hfault : forall e,
             try_block w recipient template_path images = inl e ->
             create_email_message w self recipient template_path images st
             = (Raise e, emit (create_log template_path e) st)).
  { intros e He. now rewrite create_email_message_spec, Hto, Hname, He. }
  split.
  - intros e He Hcls. rewrite (Hfault e).
    + unfold create_log. now rewrite Hcls.
    + unfold try_block. now rewrite He.
  - intros e He Hcls. rewrite (Hfault e).
    + unfold create_log. destruct (exn_cls e); congruence.
    + unfold try_block. rewrite Hname.
      destruct He as [-> | (template & -> & [[-> ->] | [[role ->] ->]])];
        reflexivity.
Qed.

Lemma C6_log_and_reraise_witness :
  create_email_message lab_world lab_sender ada "missing.html" [] start
  = (Raise (no_such_file "missing.html"),
     emit (Log ERROR "Template file not found: missing.html") start) /\
  create_email_message locked_world lab_sender ada "new-email.html"
    [("logo", "a.png")] start
  = (Raise permission_denied,
     emit (Log ERROR "Error creating email message: [Errno 13] Permission denied: 'a.png'")
          start).
Proof.
  split.
  - apply (C6_log_and_reraise lab_world lab_sender ada "missing.html" [] start);
      [now eexists | now eexists | reflexivity | reflexivity].
  - apply (C6_log_and_reraise locked_world lab_sender ada "new-email.html"
             [("logo", "a.png")] start); [now eexists | now eexists | | discriminate].
    right. eexists. split; [reflexivity |]. right. split; [now eexists | reflexivity].
Defined.

End FailureClaims.

(** ** Sending *)

Section Sending.
Context (w : World) (self : CIDEmailSender).
Context (template_path : string) (images : list (string * string)).

Lemma live_from_app (open : list nat) (a b : list event) :
  live_from open (a ++ b) = live_from (live_from open a) b.
Proof.
  revert open; induction a as [|e a IH]; intros open; [reflexivity |].
  destruct e as [lvl msg | i [host port| | | |] [|] | i]; cbn; apply IH.
Qed.

Lemma live_app (a b : list event) :
  live a = [] -> live (a ++ b) = live b.
Proof. intros H. unfold live in *. now rewrite live_from_app, H. Qed.

(** Whatever the relay answers, the session leaves no socket open. *)
Lemma live_session_trace (n : nat) (sc : session_script) (host : string)
    (port : Z) (user password : string) (msg : MIMEMultipart) :
  live (session_trace n sc host port user password msg) = [].
Proof.
  unfold live, session_trace, body_trace.
  destruct sc as [c t l s q]; cbn.
  destruct c, t, l, s, q; cbn; rewrite ?Nat.eqb_refl; reflexivity.
Qed.

Lemma send_email_run_live (recipient : gmap string string) (n : nat) :
  live (send_email_run w self recipient template_path images n).1.2 = [].
Proof.
  unfold send_email_run.
  destruct (recipient !! "email") as [email|]; [| reflexivity].
  destruct (recipient !! "name") as [name|]; [| reflexivity].
  destruct (try_block w recipient template_path images) as [e|[html ps]].
  { unfold create_log. now destruct (exn_cls e). }
  cbv zeta.
  destruct (session_outcome (smtp_relay w n)); cbn [fst snd];
    rewrite live_app by apply live_session_trace; reflexivity.
Qed.

Lemma send_email_run_sessions (recipient : gmap string string) (n : nat) :
  let n' := (send_email_run w self recipient template_path images n).2 in
  n <= n' <= S n.
Proof.
  unfold send_email_run.
  destruct (recipient !! "email") as [email|]; [| cbn; lia].
  destruct (recipient !! "name") as [name|]; [| cbn; lia].
  destruct (try_block w recipient template_path images) as [e|[html ps]];
    [cbn; lia |].
  cbv zeta. destruct (session_outcome (smtp_relay w n)); cbn; lia.
Qed.

(** With an address to report, [send_email] returns a boolean. *)
Lemma send_email_run_ok (recipient : gmap string string) (email : string) (n : nat) :
  recipient !! "email" = Some email ->
  exists sent evs n',
    send_email_run w self recipient template_path images n = (Ok sent, evs, n').
Proof.
  intros Hemail. unfold send_email_run. rewrite Hemail.
  destruct (recipient !! "name") as [name|]; [| now eexists _, _, _].
  destruct (try_block w recipient template_path images) as [e|[html ps]];
    [now eexists _, _, _ |].
  cbv zeta. destruct (session_outcome (smtp_relay w n)); now eexists _, _, _.
Qed.

Lemma select_app_true (oks : list bool) (emails : list string) (b ok : bool)
    (email : string) :
  select b (ok :: oks) (email :: emails)
  = (if Bool.eqb ok b then [email] else []) ++ select b oks emails.
Proof. cbn. now destruct (Bool.eqb ok b). Qed.

Lemma select_lengths (oks : list bool) (emails : list string) :
  length oks = length emails ->
  length (select true oks emails) + length (select false oks emails)
  = length emails.
Proof.
  revert emails; induction oks as [|ok oks IH]; intros [|email emails] H;
    try discriminate; [reflexivity |].
  injection H as H. specialize (IH _ H).
  destruct ok; cbn; lia.
Qed.

Lemma select_elem (b : bool) (oks : list bool) (emails : list string) (a : string) :
  a ∈ select b oks emails -> a ∈ emails.
Proof.
  revert emails; induction oks as [|ok oks IH]; intros [|email emails] H;
    try (cbn in H; now apply elem_of_nil in H).
  cbn in H. destruct (Bool.eqb ok b).
  - apply elem_of_cons in H as [-> | H]; [left | right; now apply IH].
  - right. now apply IH.
Qed.

Lemma select_disjoint (oks : list bool) (emails : list string) (a : string) :
  NoDup emails ->
  a ∈ select true oks emails -> a ∉ select false oks emails.
Proof.
  revert emails; induction oks as [|ok oks IH]; intros [|email emails] Hnd Ht Hf;
    try (cbn in Ht; now apply elem_of_nil in Ht).
  apply NoDup_cons in Hnd as [Hnot Hnd].
  destruct ok; cbn in Ht, Hf.
  - apply elem_of_cons in Ht as [-> | Ht].
    + apply Hnot. eapply select_elem, Hf.
    + now apply (IH emails).
  - apply elem_of_cons in Hf as [-> | Hf].
    + apply Hnot. eapply select_elem, Ht.
    + now apply (IH emails).
Qed.

(** The loop runs to its end: one outcome per recipient, each address put
    at the end of the list of its outcome, one chunk of events per turn. *)
Lemma send_bulk_run_ok (recipients : list (gmap string string))
    (emails : list string) (n : nat) (results : SendResult) :
  Forall2 (fun r e => r !! "email" = Some e) recipients emails ->
  exists res chunks n' oks,
    send_bulk_run w self recipients template_path images n results
    = (Ok res, chunks, n') /\
    length oks = length recipients /\
    length chunks = length recipients /\
    success res = success results ++ select true oks emails /\
    failed res = failed results ++ select false oks emails /\
    n <= n' <= n + length recipients.
Proof.
  intros H; revert n results;
    induction H as [|r email rs emails Hr Hrs IH]; intros n results.
  - exists results, [], n, []. cbn. rewrite !app_nil_r.
    repeat split; lia.
  - cbn [send_bulk_run].
    destruct (send_email_run_ok r email n Hr) as (sent & evs & n1 & Hrun).
    pose proof (send_email_run_sessions r n) as Hn. rewrite Hrun in Hn. cbn in Hn.
    rewrite Hrun, Hr.
    match goal with
    | |- context [send_bulk_run _ _ _ _ _ n1 ?results'] =>
        destruct (IH n1 results')
          as (res & chunks & n' & oks & Hrest & Hlen & Hch & Hs & Hf & Hn')
    end.
    rewrite Hrest. exists res, (evs :: chunks), n', (sent :: oks).
    split; [reflexivity |].
    split; [cbn; lia |]. split; [cbn; lia |].
    rewrite Hs, Hf.
    destruct sent; cbn; rewrite <- ?app_assoc; repeat split; lia.
Qed.

Lemma send_bulk_run_live (recipients : list (gmap string string))
    (n : nat) (results : SendResult) :
  let chunks := (send_bulk_run w self recipients template_path images n results).1.2 in
  Forall (fun c => live c = []) chunks /\ length chunks <= length recipients.
Proof.
  revert n results; induction recipients as [|r rs IH]; intros n results.
  - cbn. split; [constructor | lia].
  - cbn [send_bulk_run].
    pose proof (send_email_run_live r n) as Hl.
    destruct (send_email_run w self r template_path images n)
      as [[[sent|e] evs] n1]; cbn [fst snd] in Hl.
    2:{ cbn. split; [now repeat constructor | lia]. }
    destruct (r !! "email") as [email|].
    2:{ cbn. split; [now repeat constructor | lia]. }
    match goal with
    | |- context [send_bulk_run _ _ _ _ _ n1 ?results'] =>
        specialize (IH n1 results');
        destruct (send_bulk_run w self rs template_path images n1 results')
          as [[res chunks] n']
    end.
    cbn in *. destruct IH as [IH1 IH2]. split; [now constructor | lia].
Qed.

(** The loop passes through the states of calling [send_email] on every
    recipient in turn. *)
Lemma send_bulk_loop_attempts (recipients : list (gmap string string))
    (emails : list string) (results : SendResult) (st : State) :
  Forall2 (fun r e => r !! "email" = Some e) recipients emails ->
  exists res oks,
    send_bulk_loop w self recipients template_path images results st
    = (Ok res, (attempt_each w self recipients template_path images st).2) /\
    (attempt_each w self recipients template_path images st).1 = map Ok oks /\
    success res = success results ++ select true oks emails /\
    failed res = failed results ++ select false oks emails.
Proof.
  intros H; revert results st;
    induction H as [|r email rs emails Hr Hrs IH]; intros results st.
  - exists results, []. cbn. now rewrite !app_nil_r.
  - cbn [send_bulk_loop attempt_each]. unfold bind at 1.
    rewrite send_email_spec.
    destruct (send_email_run_ok r email (sessions st) Hr) as (sent & evs & n1 & Hrun).
    rewrite Hrun. unfold bind at 1. rewrite (getitem_some _ _ _ _ Hr).
    match goal with
    | |- context [send_bulk_loop _ _ _ _ _ ?results' ?st1] =>
        destruct (IH results' st1) as (res & oks & Hloop & Hatt & Hs & Hf)
    end.
    rewrite Hloop.
    destruct (attempt_each w self rs template_path images (extend st evs n1))
      as [outs st2] eqn:E.
    cbn [fst snd] in *. exists res, (sent :: oks).
    split; [reflexivity |]. split; [cbn; now rewrite Hatt |].
    rewrite Hs, Hf. destruct sent; cbn; now rewrite <- ?app_assoc.
Qed.

End Sending.

(** ** Claims on [send_email] and [send_bulk_emails] *)

Section SendingClaims.

(** C3, as stated, fails twice.  An error of the construction does get
    past [send_email]: for a recipient without an address the handler
    raises the [KeyError] again.  And a confirmed transmission does not
    always give [True]: when the closing [QUIT] is answered with an error,
    [False] is returned for a message the relay accepted. *)
Lemma C3_raises_and_reports_sent_as_failed :
  ~ (forall w self recipient template_path images st,
        exists sent st',
          send_email w self recipient template_path images st = (Ok sent, st')) /\
  ~ (forall w self recipient template_path images st sent st' m,
        send_email w self recipient template_path images st = (Ok sent, st') ->
        In (Smtp (sessions st) (SEND m) true) (trace st') ->
        sent = true).
Proof.
  split.
  - intros H.
    destruct (H lab_world lab_sender addressless "new-email.html" [] start)
      as (sent & st' & Hrun).
    discriminate Hrun.
  - intros H.
    enough (false = true) by discriminate.
    eapply (H quit_rejected_world lab_sender ada "new-email.html" [] start);
      [reflexivity |].
    cbn. auto 10.
Qed.

(** C3, amended: for a recipient with an address, [send_email] never
    raises.  It returns [True] exactly when the message was built and no
    exception left the session: connecting, STARTTLS, login and the
    transmission succeeded, and the closing [QUIT] raised nothing but, at
    most, [SMTPServerDisconnected]; the message was then handed to the
    relay.  It returns [False] after any other error of the build or of
    the transport, in particular when the template cannot be read. *)
Theorem C3_send_email_contains_errors (w : World) (self : CIDEmailSender)
    (recipient : gmap string string) (template_path : string)
    (images : list (string * string)) (st : State) (email : string) :
  recipient !! "email" = Some email ->
  exists sent st',
    send_email w self recipient template_path images st = (Ok sent, st') /\
    (sent = true <->
     exists m,
       create_email_message w self recipient template_path images st = (Ok m, st) /\
       connect_r (smtp_relay w (sessions st)) = None /\
       starttls_r (smtp_relay w (sessions st)) = None /\
       login_r (smtp_relay w (sessions st)) = None /\
       send_message_r (smtp_relay w (sessions st)) = None /\
       (forall e, quit_r (smtp_relay w (sessions st)) = Some e ->
                  exn_cls e = SMTPServerDisconnected) /\
       In (Smtp (sessions st) (SEND m) true) (trace st')) /\
    ((exists e, read_text w template_path = inl e) -> sent = false).
Proof.
  intros Hemail.
  rewrite send_email_spec, create_email_message_spec.
  unfold send_email_run. rewrite Hemail.
  destruct (recipient !! "name") as [name|].
  2:{ eexists _, _. split; [reflexivity |]. split; [| reflexivity].
      split; [discriminate | intros (m & Hm & _); discriminate]. }
  destruct (try_block w recipient template_path images) as [e|[html ps]] eqn:Etb.
  { eexists _, _. split; [reflexivity |]. split; [| reflexivity].
    split; [discriminate | intros (m & Hm & _); discriminate]. }
  cbv zeta.
  assert (Hout : session_outcome (smtp_relay w (sessions st)) = None <->
                 connect_r (smtp_relay w (sessions st)) = None /\
                 starttls_r (smtp_relay w (sessions st)) = None /\
                 login_r (smtp_relay w (sessions st)) = None /\
                 send_message_r (smtp_relay w (sessions st)) = None /\
                 (forall e, quit_r (smtp_relay w (sessions st)) = Some e ->
                            exn_cls e = SMTPServerDisconnected)).
  { unfold session_outcome, exit_outcome, body_outcome, is_disconnected.
    destruct (smtp_relay w (sessions st)) as [c t l s q]; cbn.
    split.
    - destruct c; [discriminate |]. destruct q as [eq|].
      + destruct (exn_cls eq) eqn:Ecls; try discriminate.
        destruct t; [discriminate |]. destruct l; [discriminate |].
        intros ->. repeat split. now intros e' [= <-].
      + destruct t; [discriminate |]. destruct l; [discriminate |].
        intros ->. repeat split. discriminate.
    - intros (-> & -> & -> & -> & Hq). destruct q as [eq|]; [| reflexivity].
      now rewrite (Hq eq eq_refl). }
  destruct (session_outcome (smtp_relay w (sessions st))) as [e|] eqn:Eout.
  { eexists _, _. split; [reflexivity |]. split; [| reflexivity].
    split; [discriminate |].
    intros (m & _ & Hc & Ht & Hl & Hs & Hq & _).
    assert (Some e = None) by (apply Hout; now repeat split).
    discriminate. }
  destruct Hout as [Hout _]. destruct (Hout eq_refl) as (Hc & Ht & Hl & Hs & Hq).
  eexists _, _. split; [reflexivity |]. split.
  - split; [intros _ | reflexivity].
    eexists. split; [reflexivity |]. repeat (split; [assumption |]).
    cbn [trace extend]. apply in_or_app. right. apply in_or_app. left.
    unfold session_trace, body_trace. rewrite Hc, Ht, Hl, Hs. cbn. auto.
  - intros [e He]. unfold try_block in Etb. rewrite He in Etb. discriminate.
Qed.

Lemma C3_send_email_contains_errors_witness :
  ada !! "email" = Some "ada@x.com" /\
  exists st',
    send_email lab_world lab_sender ada "missing.html" [] start = (Ok false, st').
Proof.
  split; [reflexivity |].
  destruct (C3_send_email_contains_errors lab_world lab_sender ada "missing.html"
              [] start "ada@x.com" eq_refl) as (sent & st' & Hrun & _ & Hmiss).
  exists st'. rewrite (Hmiss (ex_intro _ _ eq_refl)) in Hrun. exact Hrun.
Defined.

(** C8: every session [send_email] opens is closed when it returns, on
    every way out: the events of one call leave no socket open, and in a
    bulk send this holds for the events of every turn of the loop, so no
    connection is open when the next recipient is processed. *)
Theorem C8_sessions_closed (w : World) (self : CIDEmailSender)
    (template_path : string) (images : list (string * string)) :
  (forall recipient st,
      exists new,
        trace (send_email w self recipient template_path images st).2
        = trace st ++ new /\
        live new = [] /\
        (live (trace st) = [] ->
         live (trace (send_email w self recipient template_path images st).2) = [])) /\
  (forall recipients st,
      exists chunks,
        trace (send_bulk_emails w self recipients template_path images st).2
        = trace st ++ concat chunks /\
        length chunks <= length recipients /\
        Forall (fun c => live c = []) chunks).
Proof.
  split.
  - intros recipient st. rewrite send_email_spec.
    pose proof (send_email_run_live w self template_path images recipient (sessions st)) as Hl.
    destruct (send_email_run w self recipient template_path images (sessions st))
      as [[res evs] n]. cbn [fst snd] in *.
    exists evs. split; [reflexivity |]. split; [exact Hl |].
    intros H. cbn [trace extend]. now rewrite live_app.
  - intros recipients st. unfold send_bulk_emails. rewrite send_bulk_loop_spec.
    pose proof (send_bulk_run_live w self template_path images recipients (sessions st)
                  {| success := []; failed := [] |}) as Hl.
    destruct (send_bulk_run w self recipients template_path images (sessions st) _)
      as [[res chunks] n]. cbn [fst snd] in *.
    exists chunks. destruct Hl as [H1 H2]. now repeat split.
Qed.

(** C2, as stated, fails: two recipients with the same address, the first
    sent and the second refused, put that address in both lists. *)
Lemma C2_address_in_both_lists :
  ~ (forall w self recipients template_path images st res st',
        send_bulk_emails w self recipients template_path images st = (Ok res, st') ->
        forall a, a ∈ success res -> a ∉ failed res).
Proof.
  intros H.
  apply (H lab_world lab_sender [ada; ada] "new-email.html" [] start _ _ eq_refl
           "ada@x.com"); apply elem_of_cons; now left.
Qed.

(** C2, amended: for N recipients that all have an address,
    [send_bulk_emails] returns two lists of combined length N; the address
    of every recipient is appended to exactly one of them, in the order of
    the recipients, so that no address is in both when the addresses are
    pairwise distinct; for the empty list both lists are empty and nothing
    is attempted. *)
Theorem C2_partition (w : World) (self : CIDEmailSender)
    (recipients : list (gmap string string)) (template_path : string)
    (images : list (string * string)) (st : State) (emails : list string) :
  Forall2 (fun r e => r !! "email" = Some e) recipients emails ->
  exists res st' oks,
    send_bulk_emails w self recipients template_path images st = (Ok res, st') /\
    length oks = length recipients /\
    success res = select true oks emails /\
    failed res = select false oks emails /\
    length (success res) + length (failed res) = length recipients /\
    (NoDup emails -> forall a, a ∈ success res -> a ∉ failed res) /\
    (recipients = [] -> success res = [] /\ failed res = [] /\ st' = st).
Proof.
  intros Hall. unfold send_bulk_emails. rewrite send_bulk_loop_spec.
  destruct (send_bulk_run_ok w self template_path images recipients emails
              (sessions st) {| success := []; failed := [] |} Hall)
    as (res & chunks & n' & oks & Hrun & Hlen & _ & Hs & Hf & _).
  rewrite Hrun. cbn [success failed app] in Hs, Hf.
  exists res, (extend st (concat chunks) n'), oks.
  split; [reflexivity |]. split; [exact Hlen |].
  split; [exact Hs |]. split; [exact Hf |].
  pose proof (Forall2_length _ _ _ Hall) as Hle.
  split; [| split].
  - rewrite Hs, Hf, select_lengths; lia.
  - intros Hnd a. rewrite Hs, Hf. now apply select_disjoint.
  - intros ->. cbn in Hrun. injection Hrun as <- <- <-.
    cbn. now rewrite extend_nil.
Qed.

Lemma C2_partition_witness :
  Forall2 (fun r e => r !! "email" = Some e) [ada; bob] ["ada@x.com"; "bob@x.com"] /\
  exists res st',
    send_bulk_emails lab_world lab_sender [ada; bob] "new-email.html" [] start
    = (Ok res, st') /\
    length (success res) + length (failed res) = 2.
Proof.
  assert (Hall : Forall2 (fun (r : gmap string string) e => r !! "email" = Some e)
                   [ada; bob] ["ada@x.com"; "bob@x.com"])
    by (repeat constructor).
  split; [exact Hall |].
  destruct (C2_partition lab_world lab_sender [ada; bob] "new-email.html" [] start
              _ Hall) as (res & st' & oks & Hrun & _ & _ & _ & Hlen & _).
  exists res, st'. split; [exact Hrun | exact Hlen].
Defined.

(** C7, as stated, fails: a recipient without an address stops the loop.
    The [KeyError] of [send_email] leaves [send_bulk_emails], and the
    recipients after it get no attempt at all. *)
Lemma C7_stops_at_missing_address :
  send_bulk_emails lab_world lab_sender [addressless; ada] "new-email.html" [] start
  = (Raise (Exn KeyError "'email'"), start) /\
  ~ (forall w self recipients template_path images st,
        (send_bulk_emails w self recipients template_path images st).2
        = (attempt_each w self recipients template_path images st).2).
Proof.
  split; [reflexivity |].
  intros H.
  specialize (H lab_world lab_sender [addressless; ada] "new-email.html" [] start).
  apply (f_equal sessions) in H. vm_compute in H. discriminate H.
Qed.

(** C7, amended: for recipients that all have an address the loop never
    stops early: [send_bulk_emails] ends in the state reached by calling
    [send_email] once for every recipient in turn, whatever the earlier
    calls returned, with at most one session each, and files each address
    under the outcome of its own call; when the first of two sends
    succeeds and the second fails, the result is
    [{success: [addr1], failed: [addr2]}]. *)
Theorem C7_no_early_termination (w : World) (self : CIDEmailSender)
    (recipients : list (gmap string string)) (template_path : string)
    (images : list (string * string)) (st : State) (emails : list string) :
  Forall2 (fun r e => r !! "email" = Some e) recipients emails ->
  exists res oks,
    send_bulk_emails w self recipients template_path images st
    = (Ok res, (attempt_each w self recipients template_path images st).2) /\
    (attempt_each w self recipients template_path images st).1 = map Ok oks /\
    length oks = length recipients /\
    success res = select true oks emails /\
    failed res = select false oks emails /\
    (forall addr1 addr2, emails = [addr1; addr2] -> oks = [true; false] ->
       res = {| success := [addr1]; failed := [addr2] |}).
Proof.
  intros Hall. unfold send_bulk_emails.
  destruct (send_bulk_loop_attempts w self template_path images recipients emails
              {| success := []; failed := [] |} st Hall)
    as (res & oks & Hloop & Hatt & Hs & Hf).
  cbn [success failed app] in Hs, Hf.
  exists res, oks. split; [exact Hloop |]. split; [exact Hatt |].
  split.
  - apply (f_equal length) in Hatt. rewrite length_map in Hatt. rewrite <- Hatt.
    clear. revert st; induction recipients as [|r rs IH]; intros st; [reflexivity |].
    cbn [attempt_each].
    destruct (send_email w self r template_path images st) as [o st1].
    specialize (IH st1).
    destruct (attempt_each w self rs template_path images st1) as [os st2].
    cbn in *. now rewrite IH.
  - split; [exact Hs |]. split; [exact Hf |].
    intros addr1 addr2 -> ->. destruct res as [s f]. cbn in Hs, Hf. now subst.
Qed.

Lemma C7_no_early_termination_witness :
  Forall2 (fun r e => r !! "email" = Some e) [ada; bob] ["ada@x.com"; "bob@x.com"] /\
  exists st',
    send_bulk_emails lab_world lab_sender [ada; bob] "new-email.html"
      [("logo", "a.png")] start
    = (Ok {| success := ["ada@x.com"]; failed := ["bob@x.com"] |}, st') /\
    In (Smtp 1 (LOGIN "lab@x.com" "secret") false) (trace st').
Proof.
  assert (Hall : Forall2 (fun (r : gmap string string) e => r !! "email" = Some e)
                   [ada; bob] ["ada@x.com"; "bob@x.com"])
    by (repeat constructor).
  split; [exact Hall |].
  destruct (C7_no_early_termination lab_world lab_sender [ada; bob] "new-email.html"
              [("logo", "a.png")] start _ Hall)
    as (res & oks & Hrun & Hatt & _ & _ & _ & Hscen).
  assert (Hoks : oks = [true; false]).
  { vm_compute in Hatt. destruct oks as [|o1 [|o2 [|o3 oks]]]; try discriminate Hatt.
    cbn in Hatt. injection Hatt as <- <-. reflexivity. }
  rewrite (Hscen _ _ eq_refl Hoks) in Hrun.
  eexists. split; [exact Hrun |].
  vm_compute. tauto.
Defined.

End SendingClaims.

(** * Further properties *)

(** ** The constructor and the build *)

Section BuildProperties.
Import PyStr.

Lemma init_state (w : World) (st : State) : (init w st).2 = st.
Proof.
  unfold init, bind, py_int, of_sum.
  destruct (int_str w (getenv w "SMTP_PORT" "587")); [reflexivity |].
  unfold ret at 1. now destruct (negb _).
Qed.

(** X1: a constructed mailer holds exactly the values of the environment,
    its credentials are non-empty, and constructing it left no trace. *)
Theorem X1_init_inv (w : World) (st st' : State) (self : CIDEmailSender) :
  init w st = (Ok self, st') ->
  st' = st /\
  environ w !! "EMAIL_SENDER" = Some (sender_email self) /\
  environ w !! "EMAIL_PASSWORD" = Some (sender_password self) /\
  sender_email self <> "" /\
  sender_password self <> "" /\
  smtp_server self = getenv w "SMTP_SERVER" "smtp.gmail.com" /\
  int_str w (getenv w "SMTP_PORT" "587") = inr (smtp_port self).
Proof.
  unfold init, bind, py_int, of_sum.
  destruct (int_str w (getenv w "SMTP_PORT" "587")) as [e|port]; [discriminate |].
  unfold ret at 1. cbn [forallb].
  destruct (environ w !! "EMAIL_SENDER") as [[|c s]|]; try discriminate;
    destruct (environ w !! "EMAIL_PASSWORD") as [[|c' s']|]; try discriminate.
  intros [= <- <-]. cbn. repeat split; discriminate.
Qed.

Lemma X1_init_inv_witness :
  init lab_world start = (Ok lab_sender, start) /\
  environ lab_world !! "EMAIL_SENDER" = Some "lab@x.com" /\
  smtp_server lab_sender = "smtp.gmail.com".
Proof.
  split; [reflexivity |].
  destruct (X1_init_inv lab_world start start lab_sender eq_refl)
    as (_ & Hs & _ & _ & _ & Hh & _).
  split; [exact Hs | exact Hh].
Defined.

(** X2: the address and the name are looked up before the [try] block: a
    recipient without one of them makes [create_email_message] raise
    [KeyError] with nothing logged, whatever the template and the images
    are, the address first.  The role is looked up inside the block: when
    it is missing the [KeyError] is logged as an error of the creation. *)
Theorem X2_missing_keys (w : World) (self : CIDEmailSender)
    (recipient : gmap string string) (template_path : string)
    (images : list (string * string)) (st : State) :
  (recipient !! "email" = None ->
   create_email_message w self recipient template_path images st
   = (Raise (Exn KeyError "'email'"), st)) /\
  (is_Some (recipient !! "email") -> recipient !! "name" = None ->
   create_email_message w self recipient template_path images st
   = (Raise (Exn KeyError "'name'"), st)) /\
  (is_Some (recipient !! "email") -> is_Some (recipient !! "name") ->
   forall template, read_text w template_path = inr template ->
   recipient !! "role" = None ->
   create_email_message w self recipient template_path images st
   = (Raise (Exn KeyError "'role'"),
      emit (Log ERROR "Error creating email message: 'role'") st)).
Proof.
  rewrite create_email_message_spec. unfold try_block. repeat split.
  - now intros ->.
  - now intros [to ->] ->.
  - intros [to ->] [name ->] template -> ->. reflexivity.
Qed.

Lemma X2_missing_keys_witness :
  create_email_message lab_world lab_sender addressless "missing.html" [] start
  = (Raise (Exn KeyError "'email'"), start) /\
  create_email_message lab_world lab_sender nameless "missing.html" [] start
  = (Raise (Exn KeyError "'name'"), start) /\
  create_email_message lab_world lab_sender roleless "new-email.html" [] start
  = (Raise (Exn KeyError "'role'"),
     emit (Log ERROR "Error creating email message: 'role'") start).
Proof.
  split; [| split].
  - now apply (X2_missing_keys lab_world lab_sender addressless).
  - apply (X2_missing_keys lab_world lab_sender nameless); [now eexists | reflexivity].
  - eapply (X2_missing_keys lab_world lab_sender roleless);
      [now eexists | now eexists | reflexivity | reflexivity].
Defined.

(** X3: the clause for [FileNotFoundError] also catches the one of an image
    file: when the template was read and an image file does not exist, the
    line logged still says that the template was not found, and the
    exception of the image file is raised. *)
Theorem X3_missing_image_logged_as_template (w : World) (self : CIDEmailSender)
    (recipient : gmap string string) (template_path : string)
    (images : list (string * string)) (st : State) (template : string) (e : exn) :
  is_Some (recipient !! "email") ->
  is_Some (recipient !! "name") ->
  is_Some (recipient !! "role") ->
  read_text w template_path = inr template ->
  image_parts w images = inl e ->
  exn_cls e = FileNotFoundError ->
  create_email_message w self recipient template_path images st
  = (Raise e, emit (Log ERROR ("Template file not found: " +:+ template_path)) st).
Proof.
  intros [to Hto] [name Hname] [role Hrole] Ht Hi Hcls.
  rewrite create_email_message_spec. unfold try_block, create_log.
  now rewrite Hto, Hname, Ht, Hrole, Hi, Hcls.
Qed.

Lemma X3_missing_image_logged_as_template_witness :
  read_text lab_world "new-email.html" = inr "Hello {{name}}, role: {{role}}" /\
  create_email_message lab_world lab_sender ada "new-email.html"
    [("logo", "a.png"); ("banner", "gone.png")] start
  = (Raise (no_such_file "gone.png"),
     emit (Log ERROR "Template file not found: new-email.html") start).
Proof.
  split; [reflexivity |].
  apply (X3_missing_image_logged_as_template lab_world lab_sender ada
           "new-email.html" _ start "Hello {{name}}, role: {{role}}");
    try (now eexists); reflexivity.
Defined.

(** X4: [create_email_message] never touches the relay: it leaves the
    session count as it is and adds nothing to the trace but, when it
    fails inside its [try] block, one line at level ERROR; a message is
    returned with no line logged. *)
Theorem X4_create_effects (w : World) (self : CIDEmailSender)
    (recipient : gmap string string) (template_path : string)
    (images : list (string * string)) (st : State) :
  let out := create_email_message w self recipient template_path images st in
  sessions out.2 = sessions st /\
  network_activity (trace out.2) = network_activity (trace st) /\
  (out.2 = st \/ exists msg, out.2 = emit (Log ERROR msg) st) /\
  (forall m, out.1 = Ok m -> out.2 = st).
Proof.
  cbv zeta. rewrite create_email_message_spec.
  destruct (recipient !! "email") as [to|]; [| cbn; auto].
  destruct (recipient !! "name") as [name|]; [| cbn; auto].
  destruct (try_block w recipient template_path images) as [e|[html ps]];
    [| cbn; auto].
  cbn [fst snd emit sessions trace]. repeat split.
  - unfold network_activity, create_log.
    destruct (exn_cls e); rewrite List.filter_app; cbn; apply app_nil_r.
  - right. unfold create_log. destruct (exn_cls e); now eexists.
  - discriminate.
Qed.

(** X5: a built message is a [multipart/related] whose first part is the
    HTML text and whose other parts are the images in the order of the
    map, each with the very bytes of its file, the type detected for them
    and its key as [Content-ID]. *)
Theorem X5_message_structure (w : World) (self : CIDEmailSender)
    (recipient : gmap string string) (template_path : string)
    (images : list (string * string)) (st st' : State) (m : MIMEMultipart) :
  create_email_message w self recipient template_path images st = (Ok m, st') ->
  mp_subtype m = "related" /\
  exists html ps,
    mp_payload m = MIMEText html "html" :: ps /\
    html_body m = Some html /\
    Forall2 (fun item p =>
               exists data subtype,
                 read_bytes w item.2 = inr data /\
                 image_subtype w data = Some subtype /\
                 p = MIMEImage data subtype [("Content-ID", "<" +:+ item.1 +:+ ">")])
            images ps.
Proof.
  intros Hm.
  apply create_ok_inv in Hm
    as (to & name & role & template & ps & _ & _ & _ & _ & Hps & _ & ->).
  split; [reflexivity |]. eexists _, ps. split; [reflexivity |].
  split; [reflexivity |].
  revert ps Hps; induction images as [|[k path] items IH]; intros ps Hps.
  - injection Hps as <-. constructor.
  - cbn [image_parts] in Hps. unfold image_part in Hps. cbn [fst snd] in Hps.
    destruct (read_bytes w path) as [e|data] eqn:Hd; [discriminate |].
    destruct (image_subtype w data) as [subtype|] eqn:Hs; [| discriminate].
    destruct (image_parts w items) as [e|ps']; [discriminate |].
    injection Hps as <-. constructor; [| now apply IH].
    now exists data, subtype.
Qed.

Lemma X5_message_structure_witness :
  exists m,
    create_email_message lab_world lab_sender ada "new-email.html"
      [("logo", "a.png")] start = (Ok m, start) /\
    mp_payload m
    = [MIMEText "Hello Ada, role: Engineer" "html";
       MIMEImage [Byte.x89; Byte.x50; Byte.x4e; Byte.x47] "png"
                 [("Content-ID", "<logo>")]].
Proof.
  eexists. split; [reflexivity |].
  destruct (X5_message_structure lab_world lab_sender ada "new-email.html"
              [("logo", "a.png")] start start _ eq_refl)
    as (_ & html & ps & Hp & _ & _).
  reflexivity.
Defined.

(** X6: the images are attached in order and the first one that cannot be
    read or recognised ends the build with its own exception, whatever
    the entries after it are. *)
Theorem X6_first_bad_image (w : World) (self : CIDEmailSender)
    (recipient : gmap string string) (template_path : string)
    (good rest : list (string * string)) (bad : string * string)
    (st : State) (template : string) (e : exn) :
  is_Some (recipient !! "email") ->
  is_Some (recipient !! "name") ->
  is_Some (recipient !! "role") ->
  read_text w template_path = inr template ->
  images_ok w good = true ->
  (read_bytes w bad.2 = inl e \/
   exists data,
     read_bytes w bad.2 = inr data /\ image_subtype w data = None /\
     e = Exn TypeError "Could not guess image MIME subtype") ->
  exists line,
    create_email_message w self recipient template_path (good ++ bad :: rest) st
    = (Raise e, emit (Log ERROR line) st).
Proof.
  intros [to Hto] [name Hname] [role Hrole] Ht Hgood Hbad.
  rewrite create_email_message_spec. unfold try_block.
  rewrite Hto, Hname, Ht, Hrole.
  assert (Hparts : image_parts w (good ++ bad :: rest) = inl e).
  { unfold images_ok in Hgood.
    induction good as [|g good IH]; cbn [app image_parts] in *.
    - unfold image_part.
      destruct Hbad as [-> | (data & -> & -> & ->)]; reflexivity.
    - destruct (image_part w g) as [e'|p]; [discriminate |].
      destruct (image_parts w good) as [e'|ps]; [discriminate |].
      now rewrite IH. }
  rewrite Hparts. unfold create_log. destruct (exn_cls e); now eexists.
Qed.

Lemma X6_first_bad_image_witness :
  images_ok lab_world [("logo", "a.png")] = true /\
  exists line,
    create_email_message locked_world lab_sender ada "new-email.html"
      ([] ++ ("logo", "a.png") :: [("later", "b.png")]) start
    = (Raise permission_denied, emit (Log ERROR line) start).
Proof.
  split; [reflexivity |].
  apply (X6_first_bad_image locked_world lab_sender ada "new-email.html" []
           [("later", "b.png")] ("logo", "a.png") start
           "Hello {{name}}, role: {{role}}");
    try (now eexists); try reflexivity.
  now left.
Defined.

End BuildProperties.

(** ** One send *)

Section SendProperties.

Lemma send_email_without_address (w : World) (self : CIDEmailSender)
    (recipient : gmap string string) (template_path : string)
    (images : list (string * string)) (st : State) :
  recipient !! "email" = None ->
  send_email w self recipient template_path images st
  = (Raise (Exn KeyError "'email'"), st).
Proof.
  intros H. rewrite send_email_spec. unfold send_email_run. rewrite H.
  now rewrite extend_nil.
Qed.

(** X7: for a recipient without an address [send_email] does raise: the
    handler needs the address for its log line, so the [KeyError] goes
    through, with nothing logged and the relay not contacted. *)
Theorem X7_send_email_without_address (w : World) (self : CIDEmailSender)
    (recipient : gmap string string) (template_path : string)
    (images : list (string * string)) (st : State) :
  recipient !! "email" = None ->
  send_email w self recipient template_path images st
  = (Raise (Exn KeyError "'email'"), st).
Proof.
  apply send_email_without_address.
Qed.

Lemma X7_send_email_without_address_witness :
  addressless !! "email" = None /\
  send_email lab_world lab_sender addressless "new-email.html" [] start
  = (Raise (Exn KeyError "'email'"), start).
Proof.
  split; [reflexivity |].
  now apply (X7_send_email_without_address lab_world lab_sender addressless).
Defined.

(** X8: when the message cannot be built, the relay is not contacted:
    [send_email] returns [False] having only added its own line, with the
    text of the exception, after what the build logged. *)
Theorem X8_no_session_without_message (w : World) (self : CIDEmailSender)
    (recipient : gmap string string) (template_path : string)
    (images : list (string * string)) (st st1 : State) (email : string) (e : exn) :
  recipient !! "email" = Some email ->
  create_email_message w self recipient template_path images st = (Raise e, st1) ->
  send_email w self recipient template_path images st
  = (Ok false,
     emit (Log ERROR ("Failed to send email to " +:+ email +:+ ": " +:+ exn_str e)) st1) /\
  sessions st1 = sessions st /\
  network_activity (trace st1) = network_activity (trace st).
Proof.
  intros Hemail Hc. split.
  - unfold send_email, try_except, bind at 1. rewrite Hc.
    unfold bind, getitem. now rewrite Hemail.
  - rewrite create_email_message_spec, Hemail in Hc.
    destruct (recipient !! "name") as [name|].
    2:{ injection Hc as _ <-. now split. }
    destruct (try_block w recipient template_path images) as [e'|[html ps]];
      [| discriminate].
    injection Hc as _ <-. split; [reflexivity |].
    unfold network_activity, create_log.
    destruct (exn_cls e'); cbn; rewrite List.filter_app; cbn; apply app_nil_r.
Qed.

Lemma X8_no_session_without_message_witness :
  send_email lab_world lab_sender ada "missing.html" [] start
  = (Ok false,
     extend start
       [Log ERROR "Template file not found: missing.html";
        Log ERROR "Failed to send email to ada@x.com: [Errno 2] No such file or directory: 'missing.html'"]
       0).
Proof.
  destruct (X8_no_session_without_message lab_world lab_sender ada "missing.html" []
              start _ "ada@x.com" (no_such_file "missing.html") eq_refl eq_refl)
    as (Hrun & _).
  rewrite Hrun. reflexivity.
Defined.

(** X9: in the events of one call of [send_email] the credentials are only
    sent on a session whose STARTTLS succeeded, and the message is only
    sent on a session whose login succeeded. *)
Theorem X9_tls_before_login (w : World) (self : CIDEmailSender)
    (recipient : gmap string string) (template_path : string)
    (images : list (string * string)) (st : State) :
  exists new,
    trace (send_email w self recipient template_path images st).2 = trace st ++ new /\
    protocol_ok [] [] new = true.
Proof.
  rewrite send_email_spec. unfold send_email_run.
  destruct (recipient !! "email") as [email|]; [| now exists []].
  destruct (recipient !! "name") as [name|]; [| now eexists].
  destruct (try_block w recipient template_path images) as [e|[html ps]].
  { eexists. split; [reflexivity |]. unfold create_log. now destruct (exn_cls e). }
  cbv zeta.
  assert (Hs : forall line,
             protocol_ok [] []
               (session_trace (sessions st) (smtp_relay w (sessions st))
                  (smtp_server self) (smtp_port self) (sender_email self)
                  (sender_password self) (built_message self email name html ps)
                ++ [Log line.1 line.2]) = true).
  { intros line. unfold session_trace, body_trace.
    destruct (smtp_relay w (sessions st)) as [c t l s q]; cbn.
    destruct c, t, l, s, q; cbn; unfold mem; cbn; rewrite ?Nat.eqb_refl;
      reflexivity. }
  destruct (session_outcome (smtp_relay w (sessions st))) as [e|].
  - eexists. split; [reflexivity |]. apply (Hs (ERROR, _)).
  - eexists. split; [reflexivity |]. apply (Hs (INFO, _)).
Qed.

(** X10: every command of a call of [send_email] goes to the session the
    call opened; the connection is made to the configured server and port,
    the login carries the configured credentials, and the message sent is
    the one [create_email_message] built for this recipient. *)
Theorem X10_commands_as_configured (w : World) (self : CIDEmailSender)
    (recipient : gmap string string) (template_path : string)
    (images : list (string * string)) (st : State) :
  exists new,
    trace (send_email w self recipient template_path images st).2 = trace st ++ new /\
    Forall (fun ev =>
              match ev with
              | Log _ _ => True
              | Close i => i = sessions st
              | Smtp i cmd _ =>
                  i = sessions st /\
                  match cmd with
                  | CONNECT host port =>
                      host = smtp_server self /\ port = smtp_port self
                  | LOGIN user password =>
                      user = sender_email self /\ password = sender_password self
                  | SEND m =>
                      create_email_message w self recipient template_path images st
                      = (Ok m, st)
                  | STARTTLS | QUIT => True
                  end
              end) new.
Proof.
  rewrite send_email_spec, create_email_message_spec. unfold send_email_run.
  destruct (recipient !! "email") as [email|]; [| now exists []].
  destruct (recipient !! "name") as [name|].
  2:{ eexists. split; [reflexivity |]. now repeat constructor. }
  destruct (try_block w recipient template_path images) as [e|[html ps]].
  { eexists. split; [reflexivity |]. unfold create_log.
    destruct (exn_cls e); now repeat constructor. }
  cbv zeta.
  destruct (session_outcome (smtp_relay w (sessions st))) as [e|];
    (eexists; split; [reflexivity |]);
    unfold session_trace, body_trace;
    destruct (smtp_relay w (sessions st)) as [c t l s q]; cbn;
    destruct c, t, l, s, q; cbn; repeat constructor.
Qed.

(** X11: for a recipient with an address, the last event of a call of
    [send_email] is its own line about that address, at level INFO when it
    returns [True] and at level ERROR when it returns [False]; one session
    was used when the message was built (and before that line there are
    only its commands), none otherwise (and before that line there is at
    most the line of the build). *)
Theorem X11_one_line_per_call (w : World) (self : CIDEmailSender)
    (recipient : gmap string string) (template_path : string)
    (images : list (string * string)) (st : State) (email : string) :
  recipient !! "email" = Some email ->
  exists sent st' pre last,
    send_email w self recipient template_path images st = (Ok sent, st') /\
    trace st' = trace st ++ pre ++ [last] /\
    (if sent then last = Log INFO ("Email sent successfully to " +:+ email)
     else exists e,
         last = Log ERROR ("Failed to send email to " +:+ email +:+ ": " +:+ exn_str e)) /\
    ((exists m,
         create_email_message w self recipient template_path images st = (Ok m, st)) /\
     sessions st' = S (sessions st) /\ network_activity pre = pre
     \/
     (exists e st1,
         create_email_message w self recipient template_path images st = (Raise e, st1)) /\
     sessions st' = sessions st /\ network_activity pre = [] /\ length pre <= 1).
Proof.
  intros Hemail.
  rewrite send_email_spec, create_email_message_spec. unfold send_email_run.
  rewrite Hemail.
  destruct (recipient !! "name") as [name|].
  2:{ exists false, (extend st [failed_line email (Exn KeyError (repr "name"))] (sessions st)),
        [], (failed_line email (Exn KeyError (repr "name"))).
      split; [reflexivity |]. split; [reflexivity |]. split; [now eexists |].
      right. split; [now eexists _, _ |]. cbn. repeat split; lia. }
  destruct (try_block w recipient template_path images) as [e|[html ps]].
  { exists false, (extend st [create_log template_path e; failed_line email e] (sessions st)),
      [create_log template_path e], (failed_line email e).
    split; [reflexivity |]. split; [reflexivity |]. split; [now eexists |].
    right. split; [now eexists _, _ |]. cbn [sessions extend].
    unfold create_log. destruct (exn_cls e); cbn; repeat split; lia. }
  cbv zeta.
  assert (Hnet : forall tr, network_activity
                   (session_trace (sessions st) (smtp_relay w (sessions st))
                      (smtp_server self) (smtp_port self) (sender_email self)
                      (sender_password self) tr)
                 = session_trace (sessions st) (smtp_relay w (sessions st))
                      (smtp_server self) (smtp_port self) (sender_email self)
                      (sender_password self) tr).
  { intros tr. unfold session_trace, body_trace.
    destruct (smtp_relay w (sessions st)) as [c t l s q]; cbn.
    destruct c, t, l, s, q; reflexivity. }
  destruct (session_outcome (smtp_relay w (sessions st))) as [e|].
  - eexists false, _, _, (failed_line email e).
    split; [reflexivity |]. split; [reflexivity |]. split; [now eexists |].
    left. split; [now eexists |]. split; [reflexivity | apply Hnet].
  - eexists true, _, _, (sent_line email).
    split; [reflexivity |]. split; [reflexivity |]. split; [reflexivity |].
    left. split; [now eexists |]. split; [reflexivity | apply Hnet].
Qed.

Lemma X11_one_line_per_call_witness :
  ada !! "email" = Some "ada@x.com" /\
  exists st' pre,
    send_email lab_world lab_sender ada "new-email.html" [] start = (Ok true, st') /\
    trace st' = pre ++ [Log INFO "Email sent successfully to ada@x.com"].
Proof.
  split; [reflexivity |].
  destruct (X11_one_line_per_call lab_world lab_sender ada "new-email.html" []
              start "ada@x.com" eq_refl)
    as (sent & st' & pre & last & Hrun & Htr & Hlast & _).
  assert (Hsent : sent = true) by (vm_compute in Hrun; now injection Hrun).
  subst sent. exists st', pre. split; [exact Hrun |].
  rewrite Htr, Hlast. reflexivity.
Defined.

(** X12: the answer to the closing [QUIT] decides too.  When the message
    was built and connecting, STARTTLS, login and the transmission all
    succeeded but the [QUIT] raises, [send_email] returns [False] although
    the message was handed to the relay, unless what the [QUIT] raises is
    [SMTPServerDisconnected]: that one is passed over by the exit of the
    session and [send_email] returns [True].  The socket is closed in both
    cases. *)
Theorem X12_quit_error_reported_as_failure (w : World) (self : CIDEmailSender)
    (recipient : gmap string string) (template_path : string)
    (images : list (string * string)) (st : State) (email : string)
    (m : MIMEMultipart) (e : exn) :
  recipient !! "email" = Some email ->
  create_email_message w self recipient template_path images st = (Ok m, st) ->
  connect_r (smtp_relay w (sessions st)) = None ->
  starttls_r (smtp_relay w (sessions st)) = None ->
  login_r (smtp_relay w (sessions st)) = None ->
  send_message_r (smtp_relay w (sessions st)) = None ->
  quit_r (smtp_relay w (sessions st)) = Some e ->
  exists st',
    send_email w self recipient template_path images st
    = (Ok (is_disconnected e), st') /\
    In (Smtp (sessions st) (SEND m) true) (trace st') /\
    In (Close (sessions st)) (trace st') /\
    (exn_cls e <> SMTPServerDisconnected ->
     is_disconnected e = false /\
     In (Log ERROR ("Failed to send email to " +:+ email +:+ ": " +:+ exn_str e))
        (trace st')) /\
    (exn_cls e = SMTPServerDisconnected ->
     is_disconnected e = true /\
     In (Log INFO ("Email sent successfully to " +:+ email)) (trace st')).
Proof.
  intros Hemail Hm Hc Ht Hl Hs Hq.
  unfold send_email, try_except, bind at 1. rewrite Hm.
  unfold bind at 1. rewrite with_SMTP_spec. cbv zeta.
  unfold session_outcome, exit_outcome, session_trace, body_outcome, body_trace.
  rewrite Hc, Ht, Hl, Hs, Hq.
  unfold bind, getitem. rewrite Hemail.
  unfold is_disconnected.
  destruct (exn_cls e) eqn:Ecls;
    (eexists; split; [reflexivity |]);
    cbn; rewrite !in_app_iff; cbn;
    (split; [tauto |]); (split; [tauto |]);
    (split; [intros Hne; first [congruence | split; [reflexivity | tauto]]
            | intros He; first [discriminate He | split; [reflexivity | tauto]]]).
Qed.

Lemma X12_quit_error_reported_as_failure_witness :
  (exists st',
      send_email quit_rejected_world lab_sender ada "new-email.html" [] start
      = (Ok false, st') /\
      In (Log ERROR "Failed to send email to ada@x.com: (421, b'Service not available')")
         (trace st')) /\
  (exists st',
      send_email quit_unanswered_world lab_sender ada "new-email.html" [] start
      = (Ok true, st') /\
      In (Log INFO "Email sent successfully to ada@x.com") (trace st')).
Proof.
  split.
  - destruct (X12_quit_error_reported_as_failure quit_rejected_world lab_sender ada
                "new-email.html" [] start "ada@x.com" _ _
                eq_refl eq_refl eq_refl eq_refl eq_refl eq_refl eq_refl)
      as (st' & Hrun & _ & _ & Hko & _).
    exists st'. split; [exact Hrun |]. apply Hko. discriminate.
  - destruct (X12_quit_error_reported_as_failure quit_unanswered_world lab_sender ada
                "new-email.html" [] start "ada@x.com" _ _
                eq_refl eq_refl eq_refl eq_refl eq_refl eq_refl eq_refl)
      as (st' & Hrun & _ & _ & _ & Hok).
    exists st'. split; [exact Hrun |]. now apply Hok.
Defined.

End SendProperties.

(** ** The bulk send *)

Section BulkProperties.
Context (w : World) (self : CIDEmailSender).
Context (template_path : string) (images : list (string * string)).

Lemma network_activity_app (a b : list event) :
  network_activity (a ++ b) = network_activity a ++ network_activity b.
Proof. apply List.filter_app. Qed.

Lemma select_sublist (b : bool) (oks : list bool) (emails : list string) :
  sublist (select b oks emails) emails.
Proof.
  revert emails; induction oks as [|ok oks IH]; intros [|email emails];
    try apply sublist_nil_l.
  cbn. destruct (Bool.eqb ok b); [apply sublist_skip | apply sublist_cons]; apply IH.
Qed.

Lemma select_perm (oks : list bool) (emails : list string) :
  length oks = length emails ->
  select true oks emails ++ select false oks emails ≡ₚ emails.
Proof.
  revert emails; induction oks as [|ok oks IH]; intros [|email emails] H;
    try discriminate; [reflexivity |].
  injection H as H. specialize (IH _ H). destruct ok; cbn.
  - now rewrite IH.
  - now rewrite <- Permutation_middle, IH.
Qed.

(** The accumulator of the loop is only ever appended to. *)
Lemma send_bulk_loop_acc (recipients : list (gmap string string))
    (acc : SendResult) (st : State) :
  send_bulk_loop w self recipients template_path images acc st =
  match send_bulk_loop w self recipients template_path images
          {| success := []; failed := [] |} st with
  | (Ok r, st') =>
      (Ok {| success := success acc ++ success r;
             failed := failed acc ++ failed r |}, st')
  | (Raise e, st') => (Raise e, st')
  end.
Proof.
  revert acc st; induction recipients as [|r rs IH]; intros acc st.
  - cbn. unfold ret. destruct acc; cbn. now rewrite !app_nil_r.
  - cbn [send_bulk_loop]. unfold bind at 1 3.
    destruct (send_email w self r template_path images st) as [[sent|e] st1];
      [| reflexivity].
    unfold bind at 1 2.
    destruct (getitem r "email" st1) as [[email|e] st2]; [| reflexivity].
    rewrite IH. symmetry. rewrite IH. symmetry.
    destruct (send_bulk_loop w self rs template_path images _ st2)
      as [[res|e] st3]; [| reflexivity].
    destruct sent; cbn; now rewrite <- ?app_assoc.
Qed.

Lemma send_bulk_loop_app (rs1 rs2 : list (gmap string string))
    (acc : SendResult) (st : State) :
  send_bulk_loop w self (rs1 ++ rs2) template_path images acc st =
  match send_bulk_loop w self rs1 template_path images acc st with
  | (Ok r1, st1) => send_bulk_loop w self rs2 template_path images r1 st1
  | (Raise e, st1) => (Raise e, st1)
  end.
Proof.
  revert acc st; induction rs1 as [|r rs IH]; intros acc st; [reflexivity |].
  cbn [app send_bulk_loop]. unfold bind at 1 3.
  destruct (send_email w self r template_path images st) as [[sent|e] st1];
    [| reflexivity].
  unfold bind at 1 2.
  destruct (getitem r "email" st1) as [[email|e] st2]; [| reflexivity].
  apply IH.
Qed.

Lemma batch_stops_at_missing_address (before after : list (gmap string string))
    (recipient : gmap string string) (st : State) :
  Forall (fun r => is_Some (r !! "email")) before ->
  recipient !! "email" = None ->
  send_bulk_emails w self (before ++ recipient :: after) template_path images st
  = (Raise (Exn KeyError "'email'"),
     (attempt_each w self before template_path images st).2).
Proof.
  intros Hbefore Hr. unfold send_bulk_emails.
  generalize {| success := []; failed := [] |}.
  revert st; induction Hbefore as [|r rs [email Hemail] _ IH]; intros st acc.
  - cbn [app send_bulk_loop attempt_each snd]. unfold bind at 1.
    now rewrite send_email_without_address.
  - cbn [app send_bulk_loop attempt_each]. unfold bind at 1.
    rewrite send_email_spec.
    destruct (send_email_run_ok w self template_path images r email (sessions st) Hemail)
      as (sent & evs & n1 & Hrun).
    rewrite Hrun. unfold bind at 1. rewrite (getitem_some _ _ _ _ Hemail).
    rewrite IH.
    now destruct (attempt_each w self rs template_path images (extend st evs n1)).
Qed.

(** X13: a recipient without an address stops the batch with a
    [KeyError]: no result is returned, the recipients before it have been
    processed (their mails may have been sent) and those after it are not
    attempted. *)
Theorem X13_batch_stops_at_missing_address (before after : list (gmap string string))
    (recipient : gmap string string) (st : State) :
  Forall (fun r => is_Some (r !! "email")) before ->
  recipient !! "email" = None ->
  send_bulk_emails w self (before ++ recipient :: after) template_path images st
  = (Raise (Exn KeyError "'email'"),
     (attempt_each w self before template_path images st).2).
Proof. apply batch_stops_at_missing_address. Qed.

(** X14: the two lists together are a rearrangement of the addresses of
    the recipients, duplicates included, and each of them keeps the order
    of the recipients: no address is lost, invented or moved. *)
Theorem X14_result_is_a_split (recipients : list (gmap string string))
    (emails : list string) (st st' : State) (res : SendResult) :
  Forall2 (fun r e => r !! "email" = Some e) recipients emails ->
  send_bulk_emails w self recipients template_path images st = (Ok res, st') ->
  success res ++ failed res ≡ₚ emails /\
  sublist (success res) emails /\
  sublist (failed res) emails.
Proof.
  intros Hall. unfold send_bulk_emails. rewrite send_bulk_loop_spec.
  destruct (send_bulk_run_ok w self template_path images recipients emails
              (sessions st) {| success := []; failed := [] |} Hall)
    as (res' & chunks & n' & oks & Hrun & Hlen & _ & Hs & Hf & _).
  rewrite Hrun. intros [= <- _]. cbn [success failed app] in Hs, Hf.
  rewrite Hs, Hf. pose proof (Forall2_length _ _ _ Hall).
  split; [apply select_perm; lia |]. split; apply select_sublist.
Qed.

(** X15: when the template cannot be read, every recipient is reported as
    failed, in order, and the relay is never contacted. *)
Theorem X15_unreadable_template_fails_all (recipients : list (gmap string string))
    (emails : list string) (st : State) (e : exn) :
  read_text w template_path = inl e ->
  Forall2 (fun r a => r !! "email" = Some a) recipients emails ->
  exists st',
    send_bulk_emails w self recipients template_path images st
    = (Ok {| success := []; failed := emails |}, st') /\
    sessions st' = sessions st /\
    network_activity (trace st') = network_activity (trace st).
Proof.
  intros Hread Hall. unfold send_bulk_emails.
  enough (Hgen : forall acc st,
             exists st',
               send_bulk_loop w self recipients template_path images acc st
               = (Ok {| success := success acc; failed := failed acc ++ emails |}, st') /\
               sessions st' = sessions st /\
               network_activity (trace st') = network_activity (trace st))
    by apply (Hgen {| success := []; failed := [] |}).
  clear st.
  induction Hall as [|r email rs emails Hr _ IH]; intros acc st.
  - exists st. cbn. unfold ret. rewrite app_nil_r. now destruct acc.
  - cbn [send_bulk_loop]. unfold bind at 1.
    assert (Hsend : exists st1,
               send_email w self r template_path images st = (Ok false, st1) /\
               sessions st1 = sessions st /\
               network_activity (trace st1) = network_activity (trace st)).
    { rewrite send_email_spec. unfold send_email_run, try_block.
      rewrite Hr, Hread.
      destruct (r !! "name") as [name|]; eexists; (split; [reflexivity |]);
        (split; [reflexivity |]); cbn [trace extend];
        rewrite network_activity_app; unfold create_log;
        try destruct (exn_cls e); cbn; apply app_nil_r. }
    destruct Hsend as (st1 & -> & Hs1 & Hn1).
    unfold bind at 1. rewrite (getitem_some _ _ _ _ Hr).
    destruct (IH {| success := success acc; failed := failed acc ++ [email] |} st1)
      as (st' & Hloop & Hs & Hn).
    exists st'. rewrite Hloop. cbn [success failed].
    rewrite <- app_assoc. split; [reflexivity |]. split; congruence.
Qed.

(** X16: when the template and the images are usable, every recipient has
    its three keys and the relay accepts every session, every recipient is
    reported as sent, in order, with one session each. *)
Theorem X16_all_sent (recipients : list (gmap string string))
    (emails : list string) (st : State) (template : string) :
  read_text w template_path = inr template ->
  images_ok w images = true ->
  (forall n, session_outcome (smtp_relay w n) = None) ->
  Forall2 (fun r a => r !! "email" = Some a /\
                      is_Some (r !! "name") /\ is_Some (r !! "role"))
          recipients emails ->
  exists st',
    send_bulk_emails w self recipients template_path images st
    = (Ok {| success := emails; failed := [] |}, st') /\
    sessions st' = sessions st + length recipients.
Proof.
  intros Hread Himg Hrelay Hall. unfold send_bulk_emails.
  enough (Hgen : forall acc st,
             exists st',
               send_bulk_loop w self recipients template_path images acc st
               = (Ok {| success := success acc ++ emails; failed := failed acc |}, st') /\
               sessions st' = sessions st + length recipients)
    by apply (Hgen {| success := []; failed := [] |}).
  clear st.
  induction Hall as [|r email rs emails (Hr & [name Hname] & [role Hrole]) _ IH];
    intros acc st.
  - exists st. cbn. unfold ret. rewrite app_nil_r. split; [now destruct acc | lia].
  - cbn [send_bulk_loop]. unfold bind at 1.
    assert (Hsend : exists st1,
               send_email w self r template_path images st = (Ok true, st1) /\
               sessions st1 = S (sessions st)).
    { rewrite send_email_spec. unfold send_email_run, try_block, images_ok in *.
      rewrite Hr, Hname, Hread, Hrole.
      destruct (image_parts w images) as [e|ps]; [discriminate |].
      cbv zeta. rewrite Hrelay. now eexists. }
    destruct Hsend as (st1 & -> & Hs1).
    unfold bind at 1. rewrite (getitem_some _ _ _ _ Hr).
    destruct (IH {| success := success acc ++ [email]; failed := failed acc |} st1)
      as (st' & Hloop & Hs).
    exists st'. rewrite Hloop. cbn [success failed length].
    rewrite <- app_assoc. split; [reflexivity | lia].
Qed.

(** X17: a batch can be cut anywhere: sending to [rs1 ++ rs2] is sending to
    [rs1] and then, from the state reached, to [rs2], and the lists of the
    whole are those of the two parts put end to end. *)
Theorem X17_batches_compose (rs1 rs2 : list (gmap string string))
    (st st1 st2 : State) (r1 r2 : SendResult) :
  send_bulk_emails w self rs1 template_path images st = (Ok r1, st1) ->
  send_bulk_emails w self rs2 template_path images st1 = (Ok r2, st2) ->
  send_bulk_emails w self (rs1 ++ rs2) template_path images st
  = (Ok {| success := success r1 ++ success r2;
           failed := failed r1 ++ failed r2 |}, st2).
Proof.
  unfold send_bulk_emails. intros H1 H2.
  now rewrite send_bulk_loop_app, H1, send_bulk_loop_acc, H2.
Qed.

End BulkProperties.

Lemma X13_batch_stops_at_missing_address_witness :
  send_bulk_emails lab_world lab_sender ([ada] ++ addressless :: [bob])
    "new-email.html" [] start
  = (Raise (Exn KeyError "'email'"),
     (send_email lab_world lab_sender ada "new-email.html" [] start).2).
Proof.
  rewrite (X13_batch_stops_at_missing_address lab_world lab_sender "new-email.html"
             [] [ada] [bob] addressless start);
    [reflexivity | repeat constructor; now eexists | reflexivity].
Defined.

Lemma X14_result_is_a_split_witness :
  exists res st',
    send_bulk_emails lab_world lab_sender [ada; bob; ada] "new-email.html" [] start
    = (Ok res, st') /\
    success res ++ failed res ≡ₚ ["ada@x.com"; "bob@x.com"; "ada@x.com"].
Proof.
  destruct (send_bulk_emails lab_world lab_sender [ada; bob; ada] "new-email.html"
              [] start) as [[res|e] st'] eqn:E.
  - exists res, st'. split; [reflexivity |].
    eapply (X14_result_is_a_split lab_world lab_sender "new-email.html" []
              [ada; bob; ada] _ start); [| exact E].
    repeat constructor.
  - vm_compute in E. discriminate E.
Defined.

Lemma X15_unreadable_template_fails_all_witness :
  read_text lab_world "missing.html" = inl (no_such_file "missing.html") /\
  exists st',
    send_bulk_emails lab_world lab_sender [ada; bob] "missing.html" [] start
    = (Ok {| success := []; failed := ["ada@x.com"; "bob@x.com"] |}, st') /\
    network_activity (trace st') = [].
Proof.
  split; [reflexivity |].
  destruct (X15_unreadable_template_fails_all lab_world lab_sender "missing.html" []
              [ada; bob] ["ada@x.com"; "bob@x.com"] start _ eq_refl)
    as (st' & Hrun & _ & Hnet); [repeat constructor |].
  exists st'. split; [exact Hrun | exact Hnet].
Defined.

Lemma X16_all_sent_witness :
  images_ok fine_world [("logo", "a.png")] = true /\
  exists st',
    send_bulk_emails fine_world lab_sender [ada; bob] "new-email.html"
      [("logo", "a.png")] start
    = (Ok {| success := ["ada@x.com"; "bob@x.com"]; failed := [] |}, st') /\
    sessions st' = 2.
Proof.
  split; [reflexivity |].
  apply (X16_all_sent fine_world lab_sender "new-email.html" [("logo", "a.png")]
           [ada; bob] ["ada@x.com"; "bob@x.com"] start
           "Hello {{name}}, role: {{role}}");
    [reflexivity | reflexivity | reflexivity |].
  repeat constructor; now eexists.
Defined.

Lemma X17_batches_compose_witness :
  exists st',
    send_bulk_emails lab_world lab_sender ([ada] ++ [bob]) "new-email.html" [] start
    = (Ok {| success := ["ada@x.com"]; failed := ["bob@x.com"] |}, st').
Proof.
  set (out1 := send_bulk_emails lab_world lab_sender [ada] "new-email.html" [] start).
  set (out2 := send_bulk_emails lab_world lab_sender [bob] "new-email.html" [] out1.2).
  assert (E1 : out1 = (Ok {| success := ["ada@x.com"]; failed := [] |}, out1.2))
    by (vm_compute; reflexivity).
  assert (E2 : out2 = (Ok {| success := []; failed := ["bob@x.com"] |}, out2.2))
    by (vm_compute; reflexivity).
  exists out2.2.
  exact (X17_batches_compose lab_world lab_sender "new-email.html" [] [ada] [bob]
           start out1.2 out2.2 _ _ E1 E2).
Defined.

(** ** The entry point *)

Section MainProperties.

(** X18: nothing escapes the body of [main]: it always returns.  When the
    constructor fails, all it does is log one line, "Application error: "
    followed by the text of the exception; the same line, with ['email'],
    ends a batch stopped by a recipient without an address. *)
Theorem X18_main_contains_errors (w : World)
    (recipients : list (gmap string string)) (template_path : string)
    (images : list (string * string)) (st : State) :
  (exists st', main_body w recipients template_path images st = (Ok tt, st')) /\
  (forall e st1,
      init w st = (Raise e, st1) ->
      main_body w recipients template_path images st
      = (Ok tt, emit (Log ERROR ("Application error: " +:+ exn_str e)) st)) /\
  (forall self before recipient after,
      init w st = (Ok self, st) ->
      recipients = before ++ recipient :: after ->
      Forall (fun r => is_Some (r !! "email")) before ->
      recipient !! "email" = None ->
      main_body w recipients template_path images st
      = (Ok tt,
         emit (Log ERROR "Application error: 'email'")
              (attempt_each w self before template_path images st).2)).
Proof.
  unfold main_body, try_except. split; [| split].
  - match goal with
    | |- context [match ?b st with _ => _ end] => destruct (b st) as [[[]|e] st1]
    end; now eexists.
  - intros e st1 Hinit. unfold bind at 1. rewrite Hinit.
    enough (st1 = st) as -> by reflexivity.
    pose proof (init_state w st) as Hst. now rewrite Hinit in Hst.
  - intros self before recipient after Hinit -> Hbefore Hr.
    unfold bind at 1. rewrite Hinit. unfold bind at 1.
    now rewrite (batch_stops_at_missing_address w self template_path images
                   before after recipient st Hbefore Hr).
Qed.

Lemma X18_main_contains_errors_witness :
  main_body bare_world [ada] "new-email.html" [] start
  = (Ok tt,
     emit (Log ERROR "Application error: Missing required environment variables: EMAIL_SENDER and EMAIL_PASSWORD")
          start) /\
  main_body lab_world ([ada] ++ addressless :: [bob]) "new-email.html" [] start
  = (Ok tt,
     emit (Log ERROR "Application error: 'email'")
          (send_email lab_world lab_sender ada "new-email.html" [] start).2).
Proof.
  destruct (X18_main_contains_errors bare_world [ada] "new-email.html" [] start)
    as (_ & Hconf & _).
  destruct (X18_main_contains_errors lab_world ([ada] ++ addressless :: [bob])
              "new-email.html" [] start) as (_ & _ & Hstop).
  split.
  - exact (Hconf missing_variables start eq_refl).
  - rewrite (Hstop lab_sender [ada] addressless [bob] eq_refl eq_refl);
      [reflexivity | repeat constructor; now eexists | reflexivity].
Defined.

(** X19: after a batch that returned, the body of [main] logs the
    addresses sent to, joined by ", ", at level INFO, and then the
    addresses that failed, at level WARNING, only if there is one. *)
Theorem X19_summary_lines (w : World) (recipients : list (gmap string string))
    (template_path : string) (images : list (string * string))
    (st st1 : State) (self : CIDEmailSender) (res : SendResult) :
  init w st = (Ok self, st) ->
  send_bulk_emails w self recipients template_path images st = (Ok res, st1) ->
  main_body w recipients template_path images st
  = (Ok tt,
     extend st1
       (Log INFO ("Successfully sent emails to: " +:+ join ", " (success res)) ::
        match failed res with
        | [] => []
        | _ :: _ =>
            [Log WARNING ("Failed to send emails to: " +:+ join ", " (failed res))]
        end)
       (sessions st1)).
Proof.
  intros Hinit Hbulk. unfold main_body, try_except, bind at 1. rewrite Hinit.
  unfold bind at 1. rewrite Hbulk. unfold bind, log, ret, extend, emit.
  destruct (failed res); cbn; [reflexivity |]. now rewrite <- app_assoc.
Qed.

Lemma X19_summary_lines_witness :
  exists st',
    main_body lab_world [ada; bob; bob] "new-email.html" [] start = (Ok tt, st') /\
    In (Log INFO "Successfully sent emails to: ada@x.com") (trace st') /\
    In (Log WARNING "Failed to send emails to: bob@x.com, bob@x.com") (trace st').
Proof.
  set (out := send_bulk_emails lab_world lab_sender [ada; bob; bob] "new-email.html"
                [] start).
  assert (E : out = (Ok {| success := ["ada@x.com"];
                           failed := ["bob@x.com"; "bob@x.com"] |}, out.2))
    by (vm_compute; reflexivity).
  eexists. split.
  - exact (X19_summary_lines lab_world [ada; bob; bob] "new-email.html" [] start
             out.2 lab_sender _ eq_refl E).
  - cbn [trace extend success failed join]. rewrite !in_app_iff. cbn. tauto.
Defined.

(** X20: [main] as it is written, with its empty recipient list, contacts
    no server in any environment and always returns; all it does is log
    one line: the summary with no address when the mailer could be
    constructed, the application error otherwise. *)
Theorem X20_main_sends_nothing (w : World) (st : State) :
  (main w st).1 = Ok tt /\
  sessions (main w st).2 = sessions st /\
  network_activity (trace (main w st).2) = network_activity (trace st) /\
  ((exists self, (init w st).1 = Ok self) ->
   trace (main w st).2 = trace st ++ [Log INFO "Successfully sent emails to: "]) /\
  (forall e, (init w st).1 = Raise e ->
   trace (main w st).2
   = trace st ++ [Log ERROR ("Application error: " +:+ exn_str e)]).
Proof.
  assert (Hmain : main w st =
                  match (init w st).1 with
                  | Ok _ => (Ok tt, emit (Log INFO "Successfully sent emails to: ") st)
                  | Raise e =>
                      (Ok tt, emit (Log ERROR ("Application error: " +:+ exn_str e)) st)
                  end).
  { unfold main, main_body, try_except, bind.
    pose proof (init_state w st) as Hst.
    destruct (init w st) as [[self|e] st1]; cbn [fst snd] in *; subst st1;
      reflexivity. }
  rewrite Hmain.
  destruct (init w st) as [[self|e] st1]; cbn [fst snd emit trace sessions];
    rewrite network_activity_app; cbn; rewrite app_nil_r; repeat split.
  - discriminate.
  - intros [self H]. discriminate H.
  - now intros e' [= ->].
Qed.

Lemma X20_main_sends_nothing_witness :
  (exists self, (init lab_world start).1 = Ok self) /\
  trace (main lab_world start).2 = [Log INFO "Successfully sent emails to: "] /\
  trace (main bare_world start).2
  = [Log ERROR "Application error: Missing required environment variables: EMAIL_SENDER and EMAIL_PASSWORD"].
Proof.
  assert (Hinit : exists self, (init lab_world start).1 = Ok self)
    by (now exists lab_sender).
  split; [exact Hinit |].
  destruct (X20_main_sends_nothing lab_world start) as (_ & _ & _ & Hok & _).
  destruct (X20_main_sends_nothing bare_world start) as (_ & _ & _ & _ & Hko).
  split.
  - exact (Hok Hinit).
  - exact (Hko missing_variables eq_refl).
Defined.

(** X21: for every recipient, a template in which neither placeholder
    occurs is sent as it is. *)
Theorem X21_plain_template_verbatim (w : World) (self : CIDEmailSender)
    (recipient : gmap string string) (template_path : string)
    (images : list (string * string)) (st st' : State) (m : MIMEMultipart)
    (template : string) :
  read_text w template_path = inr template ->
  PyStr.contains template "{{name}}" = false ->
  PyStr.contains template "{{role}}" = false ->
  create_email_message w self recipient template_path images st = (Ok m, st') ->
  html_body m = Some template.
Proof.
  intros Hread Hn Hr Hm.
  apply create_ok_inv in Hm
    as (to & name & role & template' & ps & _ & _ & _ & Ht & _ & _ & ->).
  rewrite Hread in Ht. injection Ht as <-.
  unfold html_body, built_message. cbn [mp_payload first_text]. f_equal.
  rewrite (replace_absent template) by (discriminate || assumption).
  now apply replace_absent.
Qed.

Lemma X21_plain_template_verbatim_witness :
  let w := {| environ := ∅;
              int_str := int_str lab_world;
              read_text := fun _ => inr "<p>Hello { all }</p>";
              read_bytes := read_bytes lab_world;
              image_subtype := image_subtype lab_world;
              smtp_relay := smtp_relay lab_world |} in
  exists m,
    create_email_message w lab_sender bob "any.html" [] start = (Ok m, start) /\
    html_body m = Some "<p>Hello { all }</p>".
Proof.
  intros w. eexists. split; [reflexivity |].
  eapply (X21_plain_template_verbatim w lab_sender bob "any.html" [] start start);
    reflexivity.
Defined.

End MainProperties.
